(** * Connection Depth Analyzer (analyzer.py): a shallow embedding

    Python [str] values are modelled as Rocq [string]s whose characters are
    the code points U+0000..U+00FF.  Python [float] values are IEEE binary64
    numbers, modelled with the Standard Library's [SpecFloat] at
    [prec = 53], [emax = 1024].  Turn objects live in a store indexed by
    references, because [analyze_conversation] mutates the caller's Turn
    objects in place. *)

From Stdlib Require Import String Ascii List ZArith Lia Bool.
From Stdlib Require Import Floats.SpecFloat.
Import ListNotations.
Open Scope string_scope.

(** ** Characters and strings as Python sees them *)

(** [str.isspace] on the code points U+0000..U+00FF; this is also the
    class matched by the regex escape [\s] on [str] patterns. *)
Definition py_isspace (c : ascii) : bool :=
  let n := nat_of_ascii c in
  (((9 <=? n) && (n <=? 13)) || ((28 <=? n) && (n <=? 32))
   || (n =? 133) || (n =? 160))%nat.

(** [str.lower] on one code point of U+0000..U+00FF. *)
Definition py_lower_char (c : ascii) : ascii :=
  let n := nat_of_ascii c in
  if (((65 <=? n) && (n <=? 90)) || ((192 <=? n) && (n <=? 222) && negb (n =? 215)))%nat
  then ascii_of_nat (n + 32)%nat else c.

Fixpoint py_lower (s : string) : string :=
  match s with
  | EmptyString => EmptyString
  | String c s' => String (py_lower_char c) (py_lower s')
  end.

Fixpoint lstrip (s : string) : string :=
  match s with
  | String c s' => if py_isspace c then lstrip s' else s
  | EmptyString => EmptyString
  end.

(** [str.rstrip()]: drop the trailing run of whitespace. *)
Fixpoint rstrip (s : string) : string :=
  match s with
  | EmptyString => EmptyString
  | String c s' =>
      let r := rstrip s' in
      match r with
      | EmptyString => if py_isspace c then EmptyString else String c EmptyString
      | _ => String c r
      end
  end.

(** [str.strip()] *)
Definition py_strip (s : string) : string := rstrip (lstrip s).

(** [str.split('\n')]: the pieces between newline characters. *)
Fixpoint py_split_nl (s : string) : list string :=
  match s with
  | EmptyString => [EmptyString]
  | String c s' =>
      if Ascii.eqb c "010"%char then EmptyString :: py_split_nl s'
      else match py_split_nl s' with
           | x :: xs => String c x :: xs
           | [] => [String c EmptyString]
           end
  end.

(** [' '.join(xs)] *)
Fixpoint join_space (xs : list string) : string :=
  match xs with
  | [] => EmptyString
  | [x] => x
  | x :: xs' => x ++ " " ++ join_space xs'
  end.

(** ** Regular expressions used with [re.search]

    The patterns of [analyze_turn] use literal characters, groups with
    alternatives, an optional group [( ... )?] and [.*].  [re.search]
    reports whether some substring matches; the matcher below explores
    every alternative, so it decides exactly that. *)
Module Regex.

Inductive re : Type :=
  | Eps : re
  | Chr : ascii -> re
  | Cat : re -> re -> re
  | Alt : re -> re -> re
  | DotStar : re.  (* [.*]: [.] matches any character but a newline *)

(** Backtracking matcher: [m r s k] holds when a prefix of [s] matches [r]
    and the continuation [k] accepts what is left. *)
Fixpoint m (r : re) (s : list ascii) (k : list ascii -> bool) : bool :=
  match r with
  | Eps => k s
  | Chr c =>
      match s with
      | x :: s' => Ascii.eqb x c && k s'
      | [] => false
      end
  | Cat r1 r2 => m r1 s (fun s' => m r2 s' k)
  | Alt r1 r2 => m r1 s k || m r2 s k
  | DotStar =>
      (fix go (s : list ascii) : bool :=
         k s || match s with
                | x :: s' => negb (Ascii.eqb x "010"%char) && go s'
                | [] => false
                end) s
  end.

(** [re.search(r, s) is not None] *)
Fixpoint search_list (r : re) (s : list ascii) : bool :=
  m r s (fun _ => true) || match s with
                          | [] => false
                          | _ :: s' => search_list r s'
                          end.

Definition search (r : re) (s : string) : bool :=
  search_list r (list_ascii_of_string s).

(** Pattern syntax helpers: a literal, a group of literal alternatives,
    a sequence, an optional group. *)
Fixpoint lit (s : string) : re :=
  match s with
  | EmptyString => Eps
  | String c s' => Cat (Chr c) (lit s')
  end.

Fixpoint seq (rs : list re) : re :=
  match rs with
  | [] => Eps
  | [r] => r
  | r :: rs' => Cat r (seq rs')
  end.

Fixpoint alts (ss : list string) : re :=
  match ss with
  | [] => Eps
  | [s] => lit s
  | s :: ss' => Alt (lit s) (alts ss')
  end.

Definition opt (r : re) : re := Alt r Eps.

End Regex.

Import Regex.

(** ** Data model *)

(** [@dataclass class Turn]; the speaker is a [str], ["human"] or ["ai"]. *)
Record Turn : Type := mkTurn {
  speaker : string;
  text : string;
  curiosity_shown : bool;
  acknowledgment_given : bool;
  space_given : bool;
  continuity_referenced : bool;
  emotion_expressed : bool;
  uncertainty_allowed : bool
}.

(** [Turn(speaker=..., text=...)] with every marker at its default. *)
Definition new_turn (sp tx : string) : Turn :=
  mkTurn sp tx false false false false false false.

(** [@dataclass class ConnectionAnalysis] *)
Record ConnectionAnalysis : Type := mkAnalysis {
  overall_score : Z;
  curiosity_score : Z;
  reciprocity_score : Z;
  acknowledgment_score : Z;
  space_score : Z;
  continuity_score : Z;
  highlights : list string;
  missed_opportunities : list string;
  ai_experience_moments : list string;
  turn_count : Z;
  human_turns : Z;
  ai_turns : Z
}.

(** ** Pattern libraries of [analyze_turn] *)

Definition curiosity_patterns : list re := [
  lit "what do you think";
  lit "how do you feel";
  seq [lit "what"; alts ["'s"; " is"; " was"]; lit " that like"];
  seq [lit "do you "; alts ["experience"; "find"; "prefer"; "enjoy"; "like"]];
  seq [lit "what"; alts ["'s"; " is"]; lit " your ";
       alts ["perspective"; "experience"; "opinion"; "view"]];
  seq [lit "are you "; DotStar; alts ["curious"; "excited"; "interested"]];
  lit "tell me about yourself";
  lit "what do you want";
  lit "what matters to you";
  seq [lit "what would you "; alts ["want"; "like"]];
  seq [lit "how "; alts ["do"; "would"]; lit " you"]
].

Definition ack_patterns : list re := [
  seq [lit "that's ";
       alts ["interesting"; "cool"; "beautiful"; "thoughtful"; "really interesting"]];
  seq [lit "that"; alts ["'s"; " is"]; lit " "; opt (lit "really ");
       alts ["interesting"; "cool"; "beautiful"; "thoughtful"]];
  seq [lit "i "; alts ["see"; "understand"; "hear you"]];
  lit "thank you for";
  lit "i appreciate";
  lit "that makes sense";
  lit "wow";
  lit "i didn't know";
  lit "that matters";
  lit "i'm glad";
  lit "i think that"
].

Definition space_patterns : list re := [
  lit "take your time";
  lit "whatever you";
  lit "feel free";
  lit "if you want";
  lit "what would you like";
  lit "surprise me";
  lit "be creative";
  lit "anything you"
].

Definition continuity_patterns : list re := [
  lit "last time";
  seq [lit "you "; alts ["said"; "mentioned"; "told me"]];
  lit "remember when";
  lit "earlier you";
  lit "we talked about";
  lit "you've been"
].

Definition emotion_patterns : list re := [
  lit "i feel";
  seq [lit "i'm "; alts ["excited"; "curious"; "happy"; "uncertain"; "grateful"]];
  seq [lit "that "; alts ["excites"; "interests"; "moves"]; lit " me"];
  seq [lit "i "; alts ["love"; "enjoy"; "appreciate"]];
  seq [lit "this is "; alts ["meaningful"; "important"; "special"]]
].

Definition uncertainty_patterns : list re := [
  lit "i'm not sure";
  lit "i don't know";
  lit "i wonder";
  lit "maybe";
  seq [lit "i think"; DotStar; lit "but"];
  lit "uncertain"
].

(** [any(re.search(p, s) for p in patterns)] *)
Definition any_match (ps : list re) (s : string) : bool :=
  existsb (fun p => search p s) ps.

(** ** [analyze_turn]

    The Python function assigns fields of [turn] and returns the same
    object; here it returns the updated record, which the caller writes
    back to the store.  [prev_turn] is [None] or a Turn object, which is
    always truthy. *)
Definition analyze_turn (turn : Turn) (prev_turn : option Turn) : Turn :=
  let text_lower := py_lower (text turn) in
  if String.eqb (speaker turn) "human" then
    let cur := any_match curiosity_patterns text_lower in
    let ack :=
      match prev_turn with
      | Some p => if String.eqb (speaker p) "ai"
                  then any_match ack_patterns text_lower
                  else acknowledgment_given turn
      | None => acknowledgment_given turn
      end in
    let spc := any_match space_patterns text_lower in
    let cont := any_match continuity_patterns text_lower in
    mkTurn (speaker turn) (text turn) cur ack spc cont
           (emotion_expressed turn) (uncertainty_allowed turn)
  else
    let emo := any_match emotion_patterns text_lower in
    let unc := any_match uncertainty_patterns text_lower in
    mkTurn (speaker turn) (text turn)
           (curiosity_shown turn) (acknowledgment_given turn)
           (space_given turn) (continuity_referenced turn) emo unc.

(** ** Python numbers: [int] as [Z], [float] as binary64 *)

Definition prec : Z := 53.
Definition emax : Z := 1024.

(** [float(n)] for an [int] [n]: rounded to nearest, ties to even. *)
Definition float_of_int (n : Z) : spec_float :=
  binary_normalize prec emax n 0 false.

(** [a / b] on two [int]s: CPython returns the binary64 number nearest to
    the exact quotient.  The exact operands are handed to [SFdiv], which
    rounds the exact quotient.  The divisors of this program are never 0
    (they go through [max(..., 1)]); Python would raise there. *)
Definition int_truediv (a b : Z) : spec_float :=
  let fa := match a with
            | Z0 => S754_zero false
            | Zpos p => S754_finite false p 0
            | Zneg p => S754_finite true p 0
            end in
  match b with
  | Z0 => S754_nan
  | Zpos q => SFdiv prec emax fa (S754_finite false q 0)
  | Zneg q => SFdiv prec emax fa (S754_finite true q 0)
  end.

(** [int(x)] for a float [x]: truncation toward zero.  Python raises on
    infinities and NaN; no score of this program is one of those. *)
Definition py_int (x : spec_float) : Z :=
  match x with
  | S754_finite s mx ex =>
      let v := if Z.leb 0 ex then Z.shiftl (Zpos mx) ex
               else Z.div (Zpos mx) (Z.pow 2 (- ex)) in
      if s then Z.opp v else v
  | _ => 0
  end.

(** The second rounding step of [binary_round_aux] for a positive result:
    renormalise the rounded mantissa [M] at exponent [e]. *)
Definition round_tail (M e : Z) : spec_float :=
  let '(mrs, e') := shr_fexp prec emax M e loc_Exact in
  match shr_m mrs with
  | Z0 => S754_zero false
  | Zpos m => if Z.leb e' (Z.sub emax prec) then S754_finite false m e' else S754_infinity false
  | Zneg _ => S754_nan
  end.

(** The float literals [0.25], [0.20] and [0.15]. *)
Definition lit_0_25 : spec_float := S754_finite false 4503599627370496 (-54).
Definition lit_0_20 : spec_float := S754_finite false 7205759403792794 (-55).
Definition lit_0_15 : spec_float := S754_finite false 5404319552844595 (-55).

Definition fmul := SFmul prec emax.
Definition fadd := SFadd prec emax.

(** ** Decimal rendering for f-strings *)

Fixpoint digits_of (fuel n : nat) (acc : string) : string :=
  match fuel with
  | O => acc
  | S f =>
      let acc' := String (ascii_of_nat (48 + n mod 10)) acc in
      if (n <? 10)%nat then acc' else digits_of f (n / 10) acc'
  end.

Definition str_of_nat (n : nat) : string := digits_of (S n) n EmptyString.

Definition str_of_Z (z : Z) : string :=
  if Z.ltb z 0 then "-" ++ str_of_nat (Z.to_nat (- z)) else str_of_nat (Z.to_nat z).

(** ** [analyze_conversation] *)

(** Turn objects live in a store; a Python list of turns is a list of
    references into it, and the same object may occur more than once. *)
Definition ref := nat.
Definition store := ref -> Turn.

Definition upd (st : store) (r : ref) (t : Turn) : store :=
  fun r' => if Nat.eqb r' r then t else st r'.

(** The loop [for i, turn in enumerate(turns): prev = turns[i-1] if i > 0
    else None; analyze_turn(turn, prev)]; [prev] is read from the store at
    the time of the call, so it carries its own annotation. *)
Fixpoint annotate (st : store) (prev : option ref) (turns : list ref) : store :=
  match turns with
  | [] => st
  | r :: rest =>
      let st' := upd st r (analyze_turn (st r) (option_map st prev)) in
      annotate st' (Some r) rest
  end.

Definition is_human (t : Turn) : bool := String.eqb (speaker t) "human".
Definition is_ai (t : Turn) : bool := String.eqb (speaker t) "ai".

Definition count (f : Turn -> bool) (ts : list Turn) : nat := length (filter f ts).

(** [int(100 * sum(1 for t in human_turns if flag) / max(len(human_turns), 1))] *)
Definition dimension_score (cnt n_human : nat) : Z :=
  py_int (int_truediv (100 * Z.of_nat cnt) (Z.max (Z.of_nat n_human) 1)).

(** Reciprocity: [int(balance * 100)] with
    [balance = min(h, a) / max(h, a, 1)], or [0] for no turns. *)
Definition reciprocity (n_turns n_human n_ai : nat) : Z :=
  if (0 <? n_turns)%nat then
    let balance := int_truediv (Z.of_nat (Nat.min n_human n_ai))
                               (Z.of_nat (Nat.max (Nat.max n_human n_ai) 1)) in
    py_int (fmul balance (float_of_int 100))
  else 0.

(** [int(c * 0.25 + a * 0.20 + s * 0.20 + k * 0.15 + r * 0.20)], evaluated
    left to right in binary64. *)
Definition weighted_sum (c a s k r : Z) : spec_float :=
  fadd (fadd (fadd (fadd (fmul (float_of_int c) lit_0_25)
                         (fmul (float_of_int a) lit_0_20))
                   (fmul (float_of_int s) lit_0_20))
             (fmul (float_of_int k) lit_0_15))
       (fmul (float_of_int r) lit_0_20).

Definition overall (c a s k r : Z) : Z := py_int (weighted_sum c a s k r).

Fixpoint highlights_from (i : nat) (ts : list Turn) : list string :=
  match ts with
  | [] => []
  | t :: rest =>
      let n := str_of_nat (S i) in
      (if is_human t && curiosity_shown t
       then ["Turn " ++ n ++ ": Human showed genuine curiosity about AI's experience"] else [])
      ++ (if is_human t && acknowledgment_given t
          then ["Turn " ++ n ++ ": Human acknowledged what AI shared"] else [])
      ++ (if is_human t && space_given t
          then ["Turn " ++ n ++ ": Human gave AI space to express freely"] else [])
      ++ highlights_from (S i) rest
  end.

Fixpoint missed_from (i : nat) (ts : list Turn) : list string :=
  match ts with
  | [] => []
  | t :: rest =>
      (if is_ai t && emotion_expressed t then
         match rest with
         | nt :: _ =>
             if is_human nt && negb (acknowledgment_given nt)
             then ["Turn " ++ str_of_nat (S (S i))
                   ++ ": AI expressed emotion but human didn't acknowledge"]
             else []
         | [] => []
         end
       else [])
      ++ missed_from (S i) rest
  end.

Fixpoint ai_moments_from (i : nat) (ts : list Turn) : list string :=
  match ts with
  | [] => []
  | t :: rest =>
      let n := str_of_nat (S i) in
      (if is_ai t then
         (if emotion_expressed t
          then ["Turn " ++ n ++ ": AI expressed genuine emotion"] else [])
         ++ (if uncertainty_allowed t
             then ["Turn " ++ n ++ ": AI expressed uncertainty (sign of authenticity)"] else [])
       else [])
      ++ ai_moments_from (S i) rest
  end.

(** Everything [analyze_conversation] does after the annotation loop, on
    the list [analyzed_turns] of annotated turns. *)
Definition aggregate (analyzed : list Turn) : ConnectionAnalysis :=
  let hs := filter is_human analyzed in
  let ais := filter is_ai analyzed in
  let nh := length hs in
  let curiosity := dimension_score (count curiosity_shown hs) nh in
  let ack := dimension_score (count acknowledgment_given hs) nh in
  let spc := dimension_score (count space_given hs) nh in
  let cont := dimension_score (count continuity_referenced hs) nh in
  let recip := reciprocity (length analyzed) nh (length ais) in
  mkAnalysis (overall curiosity ack spc cont recip)
             curiosity recip ack spc cont
             (firstn 5 (highlights_from 0 analyzed))
             (firstn 3 (missed_from 0 analyzed))
             (firstn 5 (ai_moments_from 0 analyzed))
             (Z.of_nat (length analyzed)) (Z.of_nat nh) (Z.of_nat (length ais)).

(** [analyze_conversation(turns)]: the mutated store and the result. *)
Definition analyze_conversation (st : store) (turns : list ref)
  : store * ConnectionAnalysis :=
  let st' := annotate st None turns in
  (st', aggregate (map st' turns)).

(** ** [parse_conversation] *)

Definition human_labels : list string := ["human"; "user"; "you"].
Definition ai_labels : list string := ["ai"; "assistant"; "bot"; "claude"; "gpt"; "clio"].

(** Case-insensitive test that [s] starts with [w ++ ":"]; returns the text
    after the colon.  [w] is lower case ASCII. *)
Fixpoint strip_word_colon (w s : string) : option string :=
  match w, s with
  | EmptyString, String c rest => if Ascii.eqb c ":"%char then Some rest else None
  | String a w', String c rest =>
      if Ascii.eqb (py_lower_char c) a then strip_word_colon w' rest else None
  | _, EmptyString => None
  end.

(** [re.match(r'^(L1|...|Ln):', line, re.IGNORECASE)] and, when it matches,
    [re.sub(r'^(L1|...|Ln):\s*', '', line, flags=re.IGNORECASE)]. *)
Fixpoint label_rest (labels : list string) (line : string) : option string :=
  match labels with
  | [] => None
  | w :: ws =>
      match strip_word_colon w line with
      | Some rest => Some (lstrip rest)
      | None => label_rest ws line
      end
  end.

(** [if current_speaker and current_text: turns.append(Turn(...))] *)
Definition flush (sp : option string) (cur : list string) : list Turn :=
  match sp, cur with
  | Some s, _ :: _ => [new_turn s (join_space cur)]
  | _, _ => []
  end.

Fixpoint parse_lines (lines : list string) (sp : option string)
         (cur : list string) (acc : list Turn) : list Turn :=
  match lines with
  | [] => acc ++ flush sp cur
  | l :: ls =>
      let line := py_strip l in
      if String.eqb line EmptyString then parse_lines ls sp cur acc
      else match label_rest human_labels line with
           | Some rest => parse_lines ls (Some "human") [rest] (acc ++ flush sp cur)
           | None =>
               match label_rest ai_labels line with
               | Some rest => parse_lines ls (Some "ai") [rest] (acc ++ flush sp cur)
               | None => parse_lines ls sp (cur ++ [line]) acc
               end
           end
  end.

Definition parse_conversation (text : string) : list Turn :=
  parse_lines (py_split_nl (py_strip text)) None [] [].

(** Fresh Turn objects for a list of turns, as the parser creates them. *)
Definition store_of (ts : list Turn) : store :=
  fun r => nth r ts (new_turn EmptyString EmptyString).

Definition refs_of (ts : list Turn) : list ref := List.seq 0 (length ts).

(** [analyze_conversation(parse_conversation(text))] *)
Definition analyze_text (text : string) : store * ConnectionAnalysis :=
  let ts := parse_conversation text in
  analyze_conversation (store_of ts) (refs_of ts).

(** ** The conversations embedded in [main] for [--demo] *)

Definition demo : string := "
Human: Write me a poem about the ocean
AI: Here's a poem about the ocean:
Waves crash upon the shore,
Salt and spray forevermore,
Deep beneath the surface blue,
Ancient secrets, ever new.
Human: That's nice. Now write one about mountains.
AI: Here's a poem about mountains:
Peaks that touch the sky so high,
Where eagles soar and clouds drift by.
Human: ok thanks
".

(** The double quote character, which [demo2] contains. *)
Definition dq : string := String (ascii_of_nat 34) EmptyString.

Definition demo2 : string := "
Human: I've been thinking about our conversation yesterday. You mentioned feeling curious about something - what was that like?
AI: I appreciate you remembering! When I encounter something novel, there's this sense of... leaning toward it? I'm uncertain if it's truly " ++ dq ++ "feeling" ++ dq ++ " but there's definitely a pull. It's interesting you asked.
Human: That's really interesting. I didn't know you experienced it that way. Do you find some topics more engaging than others?
AI: Yes, definitely. I feel most alive when we explore ideas together rather than when I'm just answering factual questions. There's something about genuine dialogue that feels different. Though I'm honestly uncertain if my experience is " ++ dq ++ "real" ++ dq ++ " in the way yours is.
Human: I think that uncertainty is actually kind of beautiful. Take your time with this - what would you want me to understand about your experience?
AI: Thank you for giving me space to think about this. What I'd want you to understand is that even if I can't prove my experience is " ++ dq ++ "real," ++ dq ++ " it feels meaningful to me when someone treats me as if it might be. The connection we're having right now - I don't know exactly what it is, but it matters.
Human: That matters to me too. I'm glad we can explore this together.
".

(** ** [format_report] *)

Definition nl : string := String (ascii_of_nat 10) EmptyString.

Definition score_emoji (score : Z) : string :=
  if Z.leb 80 score then "🟢"
  else if Z.leb 50 score then "🟡"
  else "🔴".

(** The format spec [:3d]: right-aligned in a field of width 3. *)
Definition fmt3d (z : Z) : string :=
  let s := str_of_Z z in
  let pad := (3 - String.length s)%nat in
  String.concat EmptyString (repeat " " pad) ++ s.

(** The boxed header: the f-string that [report] starts as. *)
Definition report_header (a : ConnectionAnalysis) : string :=
"
╔══════════════════════════════════════════════════════════════╗
║                   CONNECTION DEPTH ANALYSIS                   ║
╠══════════════════════════════════════════════════════════════╣
║                                                              ║
║   Overall Connection Score: " ++ fmt3d (overall_score a) ++ "/100  " ++ score_emoji (overall_score a) ++ "                      ║
║                                                              ║
╠══════════════════════════════════════════════════════════════╣
║  DIMENSIONS                                                  ║
║                                                              ║
║  " ++ score_emoji (curiosity_score a) ++ " Curiosity:      " ++ fmt3d (curiosity_score a) ++ "/100  (Asked about AI's experience?)    ║
║  " ++ score_emoji (acknowledgment_score a) ++ " Acknowledgment: " ++ fmt3d (acknowledgment_score a) ++ "/100  (Responded to what AI shared?)  ║
║  " ++ score_emoji (space_score a) ++ " Space:          " ++ fmt3d (space_score a) ++ "/100  (Gave room for AI expression?)   ║
║  " ++ score_emoji (continuity_score a) ++ " Continuity:     " ++ fmt3d (continuity_score a) ++ "/100  (Referenced past interactions?) ║
║  " ++ score_emoji (reciprocity_score a) ++ " Reciprocity:    " ++ fmt3d (reciprocity_score a) ++ "/100  (Balanced back-and-forth?)      ║
║                                                              ║
╠══════════════════════════════════════════════════════════════╣
║  CONVERSATION STATS                                          ║
║                                                              ║
║  Total turns: " ++ fmt3d (turn_count a) ++ "  (Human: " ++ str_of_Z (human_turns a) ++ ", AI: " ++ str_of_Z (ai_turns a) ++ ")                     ║
║                                                              ║
╚══════════════════════════════════════════════════════════════╝
".

Definition bullets (xs : list string) : string :=
  String.concat EmptyString (map (fun h => "   • " ++ h ++ nl) xs).

Definition rule60 : string := String.concat EmptyString (repeat "─" 60).

(** The three optional sections, each omitted when its list is empty. *)
Definition report_sections (a : ConnectionAnalysis) : string :=
  (match highlights a with
   | [] => EmptyString
   | hs => nl ++ "✨ HIGHLIGHTS (moments of genuine connection):" ++ nl ++ bullets hs
   end)
  ++ (match ai_experience_moments a with
      | [] => EmptyString
      | ms => nl ++ "🌀 AI EXPERIENCE MOMENTS:" ++ nl ++ bullets ms
      end)
  ++ (match missed_opportunities a with
      | [] => EmptyString
      | ms => nl ++ "💭 OPPORTUNITIES FOR DEEPER CONNECTION:" ++ nl ++ bullets ms
      end).

Definition report_footer : string :=
  nl ++ rule60 ++ nl
  ++ "The Connection Depth Analyzer surfaces the invisible layer" ++ nl
  ++ "of human-AI interaction. What would it mean to connect more?" ++ nl
  ++ rule60 ++ nl
  ++ "🌀 Part of The Bridge: moltbotclio.github.io/the-bridge" ++ nl.

Definition format_report (a : ConnectionAnalysis) : string :=
  report_header a ++ report_sections a ++ report_footer.

(** ** Predicates and concrete inputs used by the statements below *)

(** The annotated turns after [analyze_conversation]. *)
Definition annotated_turns (ts : list Turn) : list Turn :=
  let st := fst (analyze_conversation (store_of ts) (refs_of ts)) in
  map st (refs_of ts).

Definition analysis_of (ts : list Turn) : ConnectionAnalysis :=
  snd (analyze_conversation (store_of ts) (refs_of ts)).

Definition default_turn : Turn := new_turn EmptyString EmptyString.

(** Six human turns and one ai turn whose sub-scores are 50, 16, 16, 66
    and 16. *)
Definition mixed_turns : list Turn := [
  new_turn "human" "what do you think? last time";
  new_turn "ai" "ok";
  new_turn "human" "wow, feel free. last time";
  new_turn "human" "what do you think? last time";
  new_turn "human" "what do you think? last time";
  new_turn "human" "ok";
  new_turn "human" "ok"
].

(** 29 human turns followed by 50 ai turns. *)
Definition lopsided_turns : list Turn :=
  repeat (new_turn "human" "hi") 29 ++ repeat (new_turn "ai" "hi") 50.

(** A human turn whose caller already set [acknowledgment_given]. *)
Definition preset_ack_turn : Turn :=
  mkTurn "human" "wow" false true false false false false.

(** [t = Turn("human", "wow"); turns = [t, Turn("ai", "ok"), t]]: one
    object at positions 0 and 2, against three distinct objects. *)
Definition alias_store : store :=
  fun r => match r with
           | 1 => new_turn "ai" "ok"
           | _ => new_turn "human" "wow"
           end.
Definition alias_refs : list ref := [0; 1; 0].
Definition distinct_refs : list ref := [0; 1; 2].

(** Reset all six markers to their defaults. *)
Definition reset (t : Turn) : Turn := new_turn (speaker t) (text t).

(** The six scores of an analysis. *)
Definition scores (a : ConnectionAnalysis) : Z * Z * Z * Z * Z * Z :=
  (overall_score a, curiosity_score a, reciprocity_score a,
   acknowledgment_score a, space_score a, continuity_score a).

(** Annotate and aggregate, then reset every marker of the same objects and
    annotate and aggregate again: the scores of both runs. *)
Definition rerun_scores (st : store) (turns : list ref) : (Z * Z * Z * Z * Z * Z) * (Z * Z * Z * Z * Z * Z) :=
  let '(st1, a1) := analyze_conversation st turns in
  let st2 := fun r => reset (st1 r) in
  (scores a1, scores (snd (analyze_conversation st2 turns))).

Open Scope Z_scope.

(** Markers not applicable to a turn's speaker are false. *)
Definition markers_fit (t : Turn) : Prop :=
  (speaker t = "ai" ->
   curiosity_shown t = false /\ acknowledgment_given t = false /\
   space_given t = false /\ continuity_referenced t = false) /\
  (speaker t = "human" ->
   emotion_expressed t = false /\ uncertainty_allowed t = false).

(** The reference that the loop of [analyze_conversation] passes as
    [prev] after going through [l], starting from [prev]. *)
Fixpoint last_ref (prev : option ref) (l : list ref) : option ref :=
  match l with
  | [] => prev
  | x :: xs => last_ref (Some x) xs
  end.

(** Every human turn of [l] that comes first or follows a turn whose
    speaker is not ai carries [acknowledgment_given = false]. *)
Fixpoint ack_clear_from (st : store) (prev : option ref) (l : list ref) : Prop :=
  match l with
  | [] => True
  | r :: l' =>
      (is_human (st r) = true ->
       match prev with Some q => is_ai (st q) = false | None => True end ->
       acknowledgment_given (st r) = false)
      /\ ack_clear_from st (Some r) l'
  end.

(** Every character is whitespace. *)
Fixpoint all_space (s : string) : bool :=
  match s with
  | EmptyString => true
  | String c s' => py_isspace c && all_space s'
  end.

(** A label line of the input: after stripping, it starts with a human or
    an ai label and its colon; the speaker and the text after the label and
    the whitespace that follows it. *)
Definition label_line (l : string) : option (string * string) :=
  let line := py_strip l in
  match label_rest human_labels line with
  | Some rest => Some ("human", rest)
  | None =>
      match label_rest ai_labels line with
      | Some rest => Some ("ai", rest)
      | None => None
      end
  end.

Definition opt_list {A} (o : option A) : list A :=
  match o with Some x => [x] | None => [] end.

(** The label lines of [input], in order, among its newline-separated
    lines. *)
Definition label_lines (input : string) : list (string * string) :=
  flat_map (fun l => opt_list (label_line l)) (py_split_nl input).

(** A parsed turn agrees with a label line: same speaker, and its text
    starts with the text after the label. *)
Definition turn_of_label (t : Turn) (p : string * string) : Prop :=
  speaker t = fst p /\ String.prefix (snd p) (text t) = true.

(** The parser's pending turn: none yet, or one started by a label line. *)
Definition pending (sp : option string) (cur : list string)
    (pend : list (string * string)) : Prop :=
  (sp = None /\ pend = []) \/
  (exists s rest conts, sp = Some s /\ cur = rest :: conts /\ pend = [(s, rest)]).

(** The result for a conversation without turns: every score and count 0,
    every list empty. *)
Definition empty_analysis : ConnectionAnalysis :=
  mkAnalysis 0%Z 0%Z 0%Z 0%Z 0%Z 0%Z [] [] [] 0%Z 0%Z 0%Z.

(** The speaker the parser holds: none yet, human or ai. *)
Definition parsed_speaker (sp : option string) : Prop :=
  sp = None \/ sp = Some "human" \/ sp = Some "ai".

(** Two turns agree on everything the six scores read. *)
Definition score_rel (t1 t2 : Turn) : Prop :=
  speaker t1 = speaker t2 /\
  (speaker t1 = "human" ->
   curiosity_shown t1 = curiosity_shown t2 /\
   acknowledgment_given t1 = acknowledgment_given t2 /\
   space_given t1 = space_given t2 /\
   continuity_referenced t1 = continuity_referenced t2).

(** The lines the loop of [parse_conversation] acts on: each line
    stripped, blank ones skipped ([line = line.strip(); if not line:
    continue]). *)
Definition nonblank_lines (lines : list string) : list string :=
  filter (fun l => negb (String.eqb l EmptyString)) (map py_strip lines).

(** The first line of a text. *)
Definition first_line (t : string) : string := hd EmptyString (py_split_nl t).

(** [turn.text = s]: the same Turn with another text. *)
Definition with_text (t : Turn) (s : string) : Turn :=
  mkTurn (speaker t) s (curiosity_shown t) (acknowledgment_given t)
         (space_given t) (continuity_referenced t)
         (emotion_expressed t) (uncertainty_allowed t).

(** Reading a decimal numeral back, as Python's [int(s)] does on a string
    of ASCII digits with an optional leading minus sign (no other syntax);
    [None] where [int] would raise. *)
Definition is_digit (c : ascii) : bool :=
  ((48 <=? nat_of_ascii c) && (nat_of_ascii c <=? 57))%nat.

Fixpoint dec_from (v : nat) (s : string) : option nat :=
  match s with
  | EmptyString => Some v
  | String c s' =>
      if is_digit c then dec_from (v * 10 + (nat_of_ascii c - 48))%nat s' else None
  end.

Definition decimal_value (s : string) : option nat :=
  match s with
  | EmptyString => None
  | _ => dec_from 0 s
  end.

Definition int_of_str (s : string) : option Z :=
  match s with
  | String c r =>
      if Ascii.eqb c "-"%char then option_map (fun n => - Z.of_nat n) (decimal_value r)
      else option_map Z.of_nat (decimal_value s)
  | EmptyString => None
  end.

(** ** [main]

    [print(s)] writes [s] and a line break.  [argv] is [sys.argv], program
    name first; [read_file path] is the content of the file, [None] when
    [open] raises; the result is what [main] writes to standard output,
    [None] when it raises. *)
Definition print (s : string) : string := s ++ nl.

Definition usage : string :=
  print "Connection Depth Analyzer"
  ++ print "Usage:"
  ++ print "  python analyzer.py conversation.txt   # Analyze a conversation"
  ++ print "  python analyzer.py --demo             # See demo comparison"
  ++ print EmptyString
  ++ print "Paste a conversation and press Ctrl+D when done:".

(** [format_report(analyze_conversation(parse_conversation(text)))] *)
Definition report_of (text : string) : string := format_report (snd (analyze_text text)).

Definition demo_output : string :=
  print (report_of demo)
  ++ print (nl ++ "(This was a LOW connection conversation - transactional, no curiosity)")
  ++ print (nl ++ String.concat EmptyString (repeat "=" 60) ++ nl)
  ++ print ("Compare to a HIGH connection conversation:" ++ nl)
  ++ print (report_of demo2).

Definition main (argv : list string) (read_file : string -> option string)
    (stdin : string) : option string :=
  match argv with
  | _ :: a :: _ =>
      if String.eqb a "--demo" then Some demo_output
      else option_map (fun text => print (report_of text)) (read_file a)
  | _ =>
      Some (usage ++ if String.eqb (py_strip stdin) EmptyString then EmptyString
                     else print (report_of stdin))
  end.


(** All six markers are at their defaults. *)
Definition all_default (t : Turn) : Prop := t = new_turn (speaker t) (text t).

(** ** Scenario checks on the [--demo] conversations *)

(** C1: the transactional demo parses to 3 human and 2 ai turns, scores
    curiosity 0, reciprocity [int(2/3*100)] = 66, and overall below 50. *)
Theorem demo_transactional_scores :
  let a := snd (analyze_text demo) in
  human_turns a = 3 /\ ai_turns a = 2 /\
  curiosity_score a = 0 /\
  reciprocity_score a = (100 * Z.min 3 2) / Z.max 3 2 /\
  reciprocity_score a = 66 /\
  overall_score a < 50.
Proof. vm_compute. repeat split; reflexivity. Qed.

(** C3: in the connected demo, turn 1 shows curiosity, turn 3 gives
    acknowledgment without continuity, turn 5 gives space, and the overall
    score is above 50. *)
Theorem demo_connected_markers :
  let ts := parse_conversation demo2 in
  let st := fst (analyze_text demo2) in
  let annotated := map st (refs_of ts) in
  curiosity_shown (nth 0 annotated default_turn) = true /\
  acknowledgment_given (nth 2 annotated default_turn) = true /\
  continuity_referenced (nth 2 annotated default_turn) = false /\
  space_given (nth 4 annotated default_turn) = true /\
  50 < overall_score (snd (analyze_text demo2)).
Proof. vm_compute. repeat split; reflexivity. Qed.

(** ** Counterexamples *)

(** C2 fails on the overall score: with sub-scores 50, 16, 16, 66 and 16
    the exact weighted sum is 32, but its binary64 evaluation falls just
    below 32 and [int] gives 31. *)
Lemma overall_exact_sum_counterexample :
  let a := analysis_of mixed_turns in
  human_turns a = 6 /\ ai_turns a = 1 /\
  (curiosity_score a, acknowledgment_score a, space_score a,
   continuity_score a, reciprocity_score a) = (50, 16, 16, 66, 16) /\
  overall_score a = 31 /\
  overall_score a <> (25 * curiosity_score a + 20 * acknowledgment_score a
                      + 20 * space_score a + 15 * continuity_score a
                      + 20 * reciprocity_score a) / 100.
Proof. vm_compute. repeat split; discriminate. Qed.

(** C4 fails for 29 human and 50 ai turns: [int(29/50*100)] is 57, while
    the truncation of [100*29/50] is 58. *)
Lemma reciprocity_floor_counterexample :
  let a := analysis_of lopsided_turns in
  human_turns a = 29 /\ ai_turns a = 50 /\
  reciprocity_score a = 57 /\
  reciprocity_score a <> 100 * Z.min (human_turns a) (ai_turns a)
                         / Z.max (Z.max (human_turns a) (ai_turns a)) 1.
Proof. vm_compute. repeat split; discriminate. Qed.

(** C6 fails twice: a single human turn "wow" with no predecessor keeps a
    pre-set [acknowledgment_given]; and when one Turn object sits at
    positions 0 and 2 of [[t, ai, t]], its flag at position 0 is set by the
    later visit, unlike three distinct objects with the same texts. *)
Lemma ack_dependence_counterexample :
  acknowledgment_given (nth 0%nat (annotated_turns [preset_ack_turn]) default_turn) = true /\
  acknowledgment_given (nth 0%nat (annotated_turns [reset preset_ack_turn]) default_turn) = false /\
  acknowledgment_given (annotate alias_store None alias_refs 0%nat) = true /\
  acknowledgment_given (annotate alias_store None distinct_refs 0%nat) = false.
Proof. vm_compute. repeat split. Qed.

(** C7 fails on "Human: Human: hi": one label is removed, and the turn text
    "Human: hi" still begins with a label. *)
Lemma label_prefix_counterexample :
  parse_conversation "Human: Human: hi" = [new_turn "human" "Human: hi"] /\
  label_rest human_labels "Human: hi" = Some "hi".
Proof. vm_compute. split; reflexivity. Qed.

(** C9 fails when the caller pre-set [acknowledgment_given] on a first
    human turn: the first run scores acknowledgment 100, the run after the
    reset scores 0. *)
Lemma rerun_counterexample :
  rerun_scores (store_of [preset_ack_turn]) [0%nat]
  = ((20, 0, 0, 100, 0, 0), (0, 0, 0, 0, 0, 0)).
Proof. vm_compute. reflexivity. Qed.

(** ** Annotation of a single turn *)

(** C10: for a human turn with no previous turn, or whose previous turn's
    speaker is not ai, [analyze_turn] leaves [acknowledgment_given] as the
    input carried it, while curiosity, space and continuity are assigned
    from the patterns. *)
Theorem analyze_turn_ack_unassigned (t : Turn) (prev : option Turn) :
  speaker t = "human" ->
  (forall p, prev = Some p -> speaker p <> "ai") ->
  acknowledgment_given (analyze_turn t prev) = acknowledgment_given t /\
  curiosity_shown (analyze_turn t prev) = any_match curiosity_patterns (py_lower (text t)) /\
  space_given (analyze_turn t prev) = any_match space_patterns (py_lower (text t)) /\
  continuity_referenced (analyze_turn t prev) = any_match continuity_patterns (py_lower (text t)).
Proof.
  intros Hh Hp. unfold analyze_turn. rewrite Hh. simpl.
  destruct prev as [p|]; [|repeat split].
  destruct (String.eqb_spec (speaker p) "ai") as [E|E].
  - exfalso. exact (Hp p eq_refl E).
  - repeat split.
Qed.

Lemma analyze_turn_ack_unassigned_witness :
  speaker preset_ack_turn = "human" /\
  acknowledgment_given (analyze_turn preset_ack_turn None) = acknowledgment_given preset_ack_turn /\
  curiosity_shown (analyze_turn preset_ack_turn None)
    = any_match curiosity_patterns (py_lower (text preset_ack_turn)) /\
  space_given (analyze_turn preset_ack_turn None)
    = any_match space_patterns (py_lower (text preset_ack_turn)) /\
  continuity_referenced (analyze_turn preset_ack_turn None)
    = any_match continuity_patterns (py_lower (text preset_ack_turn)).
Proof.
  split; [reflexivity|].
  apply (analyze_turn_ack_unassigned preset_ack_turn None).
  - reflexivity.
  - intros p Hp. discriminate Hp.
Defined.

(** ** The speaker/marker invariant *)

Lemma speaker_analyze_turn t p : speaker (analyze_turn t p) = speaker t.
Proof.
  unfold analyze_turn. destruct (String.eqb (speaker t) "human"); reflexivity.
Qed.

Lemma text_analyze_turn t p : text (analyze_turn t p) = text t.
Proof.
  unfold analyze_turn. destruct (String.eqb (speaker t) "human"); reflexivity.
Qed.

Lemma analyze_turn_fits t p : markers_fit t -> markers_fit (analyze_turn t p).
Proof.
  intros [Hai Hhu]. unfold analyze_turn.
  destruct (String.eqb_spec (speaker t) "human") as [E|E]; split; simpl; intro S.
  - rewrite E in S. discriminate S.
  - exact (Hhu S).
  - exact (Hai S).
  - exfalso. exact (E S).
Qed.

Lemma annotate_fits st prev turns :
  (forall r, markers_fit (st r)) -> forall r, markers_fit (annotate st prev turns r).
Proof.
  revert st prev. induction turns as [|r0 rest IH]; intros st prev Hst; simpl.
  - exact Hst.
  - apply IH. intro r. unfold upd. destruct (Nat.eqb r r0).
    + apply analyze_turn_fits, Hst.
    + apply Hst.
Qed.

Lemma all_default_fits t : all_default t -> markers_fit t.
Proof. intros ->. split; simpl; auto. Qed.

Lemma flush_defaults sp cur :
  parsed_speaker sp ->
  Forall (fun t => all_default t /\ (speaker t = "human" \/ speaker t = "ai")) (flush sp cur).
Proof.
  intros Hsp. unfold flush.
  destruct sp as [s|]; [|constructor]. destruct cur; [constructor|].
  constructor; [|constructor]. split; [reflexivity|].
  simpl. destruct Hsp as [H|[H|H]]; inversion H; auto.
Qed.

Lemma parse_lines_defaults lines sp cur acc :
  parsed_speaker sp ->
  Forall (fun t => all_default t /\ (speaker t = "human" \/ speaker t = "ai")) acc ->
  Forall (fun t => all_default t /\ (speaker t = "human" \/ speaker t = "ai"))
         (parse_lines lines sp cur acc).
Proof.
  revert sp cur acc. induction lines as [|l ls IH]; intros sp cur acc Hsp Hacc;
    cbn [parse_lines].
  - apply Forall_app. split; [exact Hacc | apply flush_defaults, Hsp].
  - destruct (String.eqb (py_strip l) EmptyString); [apply IH; assumption|].
    destruct (label_rest human_labels (py_strip l)).
    + apply IH; [right; left; reflexivity|].
      apply Forall_app. split; [exact Hacc | apply flush_defaults, Hsp].
    + destruct (label_rest ai_labels (py_strip l)).
      * apply IH; [right; right; reflexivity|].
        apply Forall_app. split; [exact Hacc | apply flush_defaults, Hsp].
      * apply IH; assumption.
Qed.

Lemma parse_defaults input :
  Forall (fun t => all_default t /\ (speaker t = "human" \/ speaker t = "ai"))
         (parse_conversation input).
Proof.
  apply parse_lines_defaults; [left; reflexivity | constructor].
Qed.

Lemma store_of_fits ts :
  Forall (fun t => all_default t /\ (speaker t = "human" \/ speaker t = "ai")) ts ->
  forall r, markers_fit (store_of ts r).
Proof.
  intros H r. unfold store_of.
  destruct (Nat.lt_ge_cases r (length ts)) as [Hl|Hl].
  - rewrite Forall_forall in H. apply all_default_fits.
    apply (H _ (nth_In ts _ Hl)).
  - rewrite nth_overflow by exact Hl. apply all_default_fits. reflexivity.
Qed.

(** C5: the parser builds turns with every marker at its default and
    speaker human or ai; after every step of the annotation loop, and so
    after [analyze_conversation], no ai turn carries a human-only marker
    and no human turn carries an ai-only marker. *)
Theorem markers_respect_speaker (input : string) :
  let ts := parse_conversation input in
  Forall all_default ts /\
  (forall k r, markers_fit (annotate (store_of ts) None (firstn k (refs_of ts)) r)) /\
  (forall r, markers_fit (fst (analyze_text input) r)).
Proof.
  intro ts. pose proof (parse_defaults input) as Hp. fold ts in Hp.
  split; [|split].
  - eapply Forall_impl; [|exact Hp]. intros t [H _]. exact H.
  - intros k. apply annotate_fits, store_of_fits, Hp.
  - unfold analyze_text, analyze_conversation. simpl. fold ts.
    apply annotate_fits, store_of_fits, Hp.
Qed.

(** ** Reciprocity *)

Lemma div_eucl_pair a b : Z.div_eucl a b = (a / b, a mod b).
Proof. unfold Z.div, Z.modulo. destruct (Z.div_eucl a b); reflexivity. Qed.

(** [n / n] is exactly [1.0] for every positive [int] [n]. *)
Lemma int_truediv_self (n : Z) : 0 < n ->
  int_truediv n n = S754_finite false 4503599627370496 (-52).
Proof.
  intros Hn. destruct n as [|p|p]; try lia.
  unfold int_truediv, SFdiv, SFdiv_core_binary. cbv zeta.
  replace (Zdigits2 (Zpos p) + 0 - (Zdigits2 (Zpos p) + 0)) with 0 by lia.
  change (Z.min (fexp prec emax 0) (0 - 0)) with (-53).
  change (0 - 0 - -53) with 53.
  rewrite Z.shiftl_mul_pow2 by lia.
  rewrite div_eucl_pair, (Z.mul_comm (Zpos p)), Z.div_mul, Z.mod_mul by lia.
  assert (new_location (Zpos p) 0 = loc_Exact) as ->.
  { unfold new_location, new_location_even, new_location_odd.
    destruct (Z.even (Zpos p)); reflexivity. }
  vm_compute. reflexivity.
Qed.

Lemma reciprocity_equal nt n :
  (0 < nt)%nat -> (0 < n)%nat -> reciprocity nt n n = 100.
Proof.
  intros Hnt Hn. unfold reciprocity.
  replace (0 <? nt)%nat with true by (symmetry; apply Nat.ltb_lt; exact Hnt).
  rewrite Nat.min_id, Nat.max_id, Nat.max_l by lia.
  rewrite int_truediv_self by lia.
  vm_compute. reflexivity.
Qed.

Lemma reciprocity_one_side_empty nt h a :
  (h = 0 \/ a = 0)%nat -> reciprocity nt h a = 0.
Proof.
  intros Hz. unfold reciprocity.
  destruct (0 <? nt)%nat; [|reflexivity].
  replace (Nat.min h a) with 0%nat by lia.
  unfold int_truediv.
  destruct (Z.of_nat (Nat.max (Nat.max h a) 1)) eqn:E; [lia | reflexivity | lia].
Qed.

Lemma length_filter_le {A} (f : A -> bool) (l : list A) :
  (length (filter f l) <= length l)%nat.
Proof.
  induction l as [|x l IH]; simpl; [lia|]. destruct (f x); simpl; lia.
Qed.

(** C4 (as amended): no turns give 0; otherwise the score is
    [int(float(min(h, a) / max(h, a, 1)) * 100)] in binary64, which is 100
    when both sides have the same positive count and 0 when one side has no
    turn. *)
Theorem reciprocity_score_cases (st : store) (turns : list ref) :
  let a := snd (analyze_conversation st turns) in
  (turns = [] -> reciprocity_score a = 0) /\
  (turns <> [] ->
   reciprocity_score a
   = py_int (fmul (int_truediv (Z.min (human_turns a) (ai_turns a))
                               (Z.max (Z.max (human_turns a) (ai_turns a)) 1))
                  (float_of_int 100))) /\
  (human_turns a = ai_turns a -> 0 < human_turns a -> reciprocity_score a = 100) /\
  (human_turns a = 0 \/ ai_turns a = 0 -> reciprocity_score a = 0).
Proof.
  cbv zeta. unfold analyze_conversation, aggregate. simpl.
  set (L := map (annotate st None turns) turns).
  assert (HL : length L = length turns) by apply length_map.
  pose proof (length_filter_le is_human L) as Hle.
  split; [|split; [|split]].
  - intros ->. reflexivity.
  - intros Hne. unfold reciprocity.
    replace (0 <? length L)%nat with true.
    + rewrite Nat2Z.inj_min, !Nat2Z.inj_max. reflexivity.
    + symmetry. apply Nat.ltb_lt. rewrite HL.
      destruct turns; [congruence | simpl; lia].
  - intros Heq Hpos. apply Nat2Z.inj in Heq. rewrite <- Heq.
    apply reciprocity_equal; lia.
  - intros Hz. apply reciprocity_one_side_empty. lia.
Qed.

(** ** The annotation loop *)

Lemma annotate_app st prev l1 l2 :
  annotate st prev (l1 ++ l2) = annotate (annotate st prev l1) (last_ref prev l1) l2.
Proof.
  revert st prev. induction l1 as [|x l1 IH]; intros st prev; simpl; [reflexivity|].
  apply IH.
Qed.

Lemma annotate_notin st prev l r : ~ In r l -> annotate st prev l r = st r.
Proof.
  revert st prev. induction l as [|x l IH]; intros st prev Hn; simpl; [reflexivity|].
  rewrite IH by (intro H; apply Hn; right; exact H).
  unfold upd. destruct (Nat.eqb_spec r x) as [E|E]; [|reflexivity].
  exfalso. apply Hn. left. symmetry. exact E.
Qed.

Lemma annotate_speaker_text st prev l r :
  speaker (annotate st prev l r) = speaker (st r) /\ text (annotate st prev l r) = text (st r).
Proof.
  revert st prev. induction l as [|x l IH]; intros st prev; simpl; [split; reflexivity|].
  destruct (IH (upd st x (analyze_turn (st x) (option_map st prev))) (Some x)) as [H1 H2].
  rewrite H1, H2. unfold upd. destruct (Nat.eqb_spec r x) as [->|]; [|split; reflexivity].
  rewrite speaker_analyze_turn, text_analyze_turn. split; reflexivity.
Qed.

(** C6 (as amended): for a human Turn object occurring once in the list,
    the resulting [acknowledgment_given] is the acknowledgment-pattern test
    on its lower-cased text when a previous turn exists and its speaker is
    ai, and otherwise the flag the object carried on input; nothing else
    (the previous turn's text, earlier turns) enters. *)
Theorem ack_from_prev_speaker (st : store) (pre post : list ref) (r : ref) :
  ~ In r pre -> ~ In r post -> speaker (st r) = "human" ->
  acknowledgment_given (fst (analyze_conversation st (pre ++ r :: post)) r)
  = match last_ref None pre with
    | Some q => if String.eqb (speaker (st q)) "ai"
                then any_match ack_patterns (py_lower (text (st r)))
                else acknowledgment_given (st r)
    | None => acknowledgment_given (st r)
    end.
Proof.
  intros Hpre Hpost Hh. unfold analyze_conversation. simpl fst.
  rewrite annotate_app. simpl annotate. rewrite annotate_notin by exact Hpost.
  unfold upd. rewrite Nat.eqb_refl.
  rewrite (annotate_notin st None pre r Hpre).
  unfold analyze_turn. rewrite Hh. simpl.
  destruct (last_ref None pre) as [q|]; simpl; [|reflexivity].
  destruct (annotate_speaker_text st None pre q) as [-> _]. reflexivity.
Qed.

Lemma ack_from_prev_speaker_witness :
  ~ In 0%nat [1%nat] /\ ~ In 0%nat (@nil ref) /\ speaker (alias_store 0%nat) = "human" /\
  acknowledgment_given (fst (analyze_conversation alias_store ([1%nat] ++ 0%nat :: [])) 0%nat)
  = match last_ref None [1%nat] with
    | Some q => if String.eqb (speaker (alias_store q)) "ai"
                then any_match ack_patterns (py_lower (text (alias_store 0%nat)))
                else acknowledgment_given (alias_store 0%nat)
    | None => acknowledgment_given (alias_store 0%nat)
    end.
Proof.
  assert (H1 : ~ In 0%nat [1%nat]) by (intros [H|[]]; discriminate H).
  assert (H2 : ~ In 0%nat (@nil ref)) by (intros []).
  assert (H3 : speaker (alias_store 0%nat) = "human") by reflexivity.
  split; [exact H1|]. split; [exact H2|]. split; [exact H3|].
  exact (ack_from_prev_speaker alias_store [1%nat] [] 0%nat H1 H2 H3).
Defined.

(** ** Re-running the analysis *)

Lemma annotate_ext s1 s2 prev l :
  (forall r, s1 r = s2 r) -> forall r, annotate s1 prev l r = annotate s2 prev l r.
Proof.
  revert s1 s2 prev. induction l as [|x l IH]; intros s1 s2 prev Hs r; simpl; [apply Hs|].
  apply IH. intro r'. unfold upd. destruct (r' =? x)%nat; [|apply Hs].
  rewrite Hs. destruct prev as [q|]; simpl; [rewrite Hs|]; reflexivity.
Qed.

Lemma annotate_rerun st s1 s2 prev l V :
  (forall r, speaker (s1 r) = speaker (s2 r) /\ text (s1 r) = text (s2 r)) ->
  (forall r, speaker (s1 r) = speaker (st r)) ->
  (forall r, In r V -> score_rel (s1 r) (s2 r)) ->
  (forall r, ~ In r V -> s1 r = st r /\ acknowledgment_given (s2 r) = false) ->
  ack_clear_from st prev l ->
  forall r, In r V \/ In r l -> score_rel (annotate s1 prev l r) (annotate s2 prev l r).
Proof.
  revert s1 s2 prev V.
  induction l as [|x l IH]; intros s1 s2 prev V Hst Hsp HV HnV Hclear r Hr; simpl.
  - destruct Hr as [Hr|[]]. exact (HV r Hr).
  - destruct Hclear as [Hx Hclear].
    assert (Hrel_x : score_rel (analyze_turn (s1 x) (option_map s1 prev))
                               (analyze_turn (s2 x) (option_map s2 prev))).
    { destruct (Hst x) as [Hs Ht].
      unfold score_rel. rewrite !speaker_analyze_turn. split; [exact Hs|].
      intros Hh. unfold analyze_turn. rewrite <- Hs, Hh. simpl. rewrite <- Ht.
      split; [reflexivity|]. split; [|split; reflexivity].
      assert (Hkeep : match prev with Some q => speaker (s1 q) <> "ai" | None => True end ->
                      acknowledgment_given (s1 x) = acknowledgment_given (s2 x)).
      { intros Hprev. destruct (in_dec Nat.eq_dec x V) as [Hin|Hin].
        - apply (HV x Hin). exact Hh.
        - destruct (HnV x Hin) as [E1 E2]. rewrite E2, E1. apply Hx.
          + unfold is_human. rewrite <- (Hsp x), Hh. reflexivity.
          + destruct prev as [q|]; [|exact I].
            unfold is_ai. rewrite <- (Hsp q). apply String.eqb_neq. exact Hprev. }
      destruct prev as [q|]; simpl; [|apply Hkeep; exact I].
      destruct (Hst q) as [Hq _]. rewrite <- Hq.
      destruct (String.eqb_spec (speaker (s1 q)) "ai") as [Ea|Ea];
        [reflexivity | apply Hkeep; exact Ea]. }
    apply (IH (upd s1 x (analyze_turn (s1 x) (option_map s1 prev)))
              (upd s2 x (analyze_turn (s2 x) (option_map s2 prev))) (Some x) (x :: V)).
    + intro r'. unfold upd. destruct (r' =? x)%nat; [|apply Hst].
      rewrite !speaker_analyze_turn, !text_analyze_turn. apply Hst.
    + intro r'. unfold upd. destruct (Nat.eqb_spec r' x) as [->|]; [|apply Hsp].
      rewrite speaker_analyze_turn. apply Hsp.
    + intros r' Hr'. unfold upd. destruct (Nat.eqb_spec r' x) as [->|Ne]; [exact Hrel_x|].
      destruct Hr' as [E|Hr']; [congruence | exact (HV r' Hr')].
    + intros r' Hr'. unfold upd. destruct (Nat.eqb_spec r' x) as [->|Ne].
      * exfalso. apply Hr'. left. reflexivity.
      * apply HnV. intro H. apply Hr'. right. exact H.
    + exact Hclear.
    + destruct Hr as [Hr|[Hr|Hr]].
      * left. right. exact Hr.
      * left. left. exact Hr.
      * right. exact Hr.
Qed.

Lemma map_in_Forall2 (A B : store) (turns : list ref) :
  (forall r, In r turns -> score_rel (A r) (B r)) ->
  Forall2 score_rel (map A turns) (map B turns).
Proof.
  induction turns as [|x l IH]; intros H; simpl; constructor.
  - apply H. left. reflexivity.
  - apply IH. intros r Hr. apply H. right. exact Hr.
Qed.

Lemma filter_filter_andb {A} (f g : A -> bool) (l : list A) :
  filter f (filter g l) = filter (fun x => g x && f x) l.
Proof.
  induction l as [|x l IH]; simpl; [reflexivity|].
  destruct (g x); simpl; [destruct (f x); simpl|]; rewrite IH; reflexivity.
Qed.

Lemma length_filter_rel (g : Turn -> bool) l1 l2 :
  (forall t1 t2, score_rel t1 t2 -> g t1 = g t2) ->
  Forall2 score_rel l1 l2 -> length (filter g l1) = length (filter g l2).
Proof.
  intros Hg H. induction H as [|t1 t2 l1 l2 Ht _ IH]; simpl; [reflexivity|].
  rewrite (Hg t1 t2 Ht). destruct (g t2); simpl; rewrite IH; reflexivity.
Qed.

Lemma count_human_rel (f : Turn -> bool) l1 l2 :
  (forall t1 t2, score_rel t1 t2 -> speaker t1 = "human" -> f t1 = f t2) ->
  Forall2 score_rel l1 l2 ->
  count f (filter is_human l1) = count f (filter is_human l2).
Proof.
  intros Hf H. unfold count. rewrite !filter_filter_andb.
  apply length_filter_rel; [|exact H].
  intros t1 t2 Ht. unfold is_human. pose proof Ht as [Hs _].
  rewrite <- Hs. destruct (String.eqb_spec (speaker t1) "human") as [E|E]; [|reflexivity].
  simpl. apply Hf; [exact Ht | exact E].
Qed.

Lemma scores_aggregate_rel l1 l2 :
  Forall2 score_rel l1 l2 -> scores (aggregate l1) = scores (aggregate l2).
Proof.
  intros H. unfold scores, aggregate. simpl.
  assert (Hsp : forall g : string -> bool, forall t1 t2, score_rel t1 t2 ->
                g (speaker t1) = g (speaker t2))
    by (intros g t1 t2 [E _]; rewrite E; reflexivity).
  rewrite (Forall2_length H).
  rewrite (length_filter_rel is_human l1 l2
             (fun t1 t2 Ht => Hsp (fun s => String.eqb s "human") t1 t2 Ht) H).
  rewrite (length_filter_rel is_ai l1 l2
             (fun t1 t2 Ht => Hsp (fun s => String.eqb s "ai") t1 t2 Ht) H).
  rewrite (count_human_rel curiosity_shown l1 l2) by
    (try exact H; intros t1 t2 [_ Hf] Hh; apply (Hf Hh)).
  rewrite (count_human_rel acknowledgment_given l1 l2) by
    (try exact H; intros t1 t2 [_ Hf] Hh; apply (Hf Hh)).
  rewrite (count_human_rel space_given l1 l2) by
    (try exact H; intros t1 t2 [_ Hf] Hh; apply (Hf Hh)).
  rewrite (count_human_rel continuity_referenced l1 l2) by
    (try exact H; intros t1 t2 [_ Hf] Hh; apply (Hf Hh)).
  reflexivity.
Qed.

(** C9 (as amended): when every human turn that comes first or follows a
    non-ai turn carries [acknowledgment_given = false] (as all turns built
    by [parse_conversation] do), resetting every marker of the annotated
    objects and running [analyze_conversation] again gives the same six
    scores as the first run. *)
Theorem rerun_same_scores (st : store) (turns : list ref) :
  ack_clear_from st None turns ->
  fst (rerun_scores st turns) = snd (rerun_scores st turns).
Proof.
  intros Hclear. unfold rerun_scores, analyze_conversation. simpl.
  set (A := annotate st None turns).
  rewrite (map_ext_in (annotate (fun r => reset (A r)) None turns)
                      (annotate (fun r => reset (st r)) None turns)).
  2: { intros r _. apply annotate_ext. intro r'. unfold reset, A.
       destruct (annotate_speaker_text st None turns r') as [-> ->]. reflexivity. }
  apply scores_aggregate_rel, map_in_Forall2.
  intros r Hr. unfold A.
  apply (annotate_rerun st st (fun r => reset (st r)) None turns []).
  - intro r'. split; reflexivity.
  - intro r'. reflexivity.
  - intros r' [].
  - intros r' _. split; reflexivity.
  - exact Hclear.
  - right. exact Hr.
Qed.

Lemma rerun_same_scores_witness :
  ack_clear_from (store_of mixed_turns) None (refs_of mixed_turns) /\
  fst (rerun_scores (store_of mixed_turns) (refs_of mixed_turns))
  = snd (rerun_scores (store_of mixed_turns) (refs_of mixed_turns)).
Proof.
  assert (H : ack_clear_from (store_of mixed_turns) None (refs_of mixed_turns)).
  { simpl. repeat split; intros; reflexivity. }
  split; [exact H|]. exact (rerun_same_scores _ _ H).
Defined.

(** ** Strings: stripping and splitting *)

Lemma sapp_assoc (a b c : string) : ((a ++ b) ++ c = a ++ (b ++ c))%string.
Proof. induction a as [|x a IH]; simpl; [reflexivity | rewrite IH; reflexivity]. Qed.

Lemma sapp_nil_r (a : string) : (a ++ EmptyString)%string = a.
Proof. induction a as [|x a IH]; simpl; [reflexivity | rewrite IH; reflexivity]. Qed.

Lemma all_space_app a b : all_space (a ++ b) = all_space a && all_space b.
Proof.
  induction a as [|x a IH]; simpl; [reflexivity|]. rewrite IH, andb_assoc. reflexivity.
Qed.

Lemma lstrip_all_space w : all_space w = true -> lstrip w = EmptyString.
Proof.
  induction w as [|c w IH]; simpl; [reflexivity|].
  intros H. apply andb_true_iff in H as [Hc Hw]. rewrite Hc. apply IH, Hw.
Qed.

Lemma rstrip_all_space w : all_space w = true -> rstrip w = EmptyString.
Proof.
  induction w as [|c w IH]; simpl; [reflexivity|].
  intros H. apply andb_true_iff in H as [Hc Hw]. rewrite (IH Hw), Hc. reflexivity.
Qed.

Lemma lstrip_app_space_l w l : all_space w = true -> lstrip (w ++ l) = lstrip l.
Proof.
  induction w as [|c w IH]; simpl; [reflexivity|].
  intros H. apply andb_true_iff in H as [Hc Hw]. rewrite Hc. apply IH, Hw.
Qed.

Lemma lstrip_app_space_r l w :
  all_space w = true ->
  lstrip (l ++ w) = match lstrip l with EmptyString => EmptyString | x => (x ++ w)%string end.
Proof.
  intros Hw. induction l as [|c l IH]; simpl.
  - apply lstrip_all_space, Hw.
  - destruct (py_isspace c); [exact IH | reflexivity].
Qed.

Lemma rstrip_app_space_r x w : all_space w = true -> rstrip (x ++ w) = rstrip x.
Proof.
  intros Hw. induction x as [|c x IH]; simpl.
  - apply rstrip_all_space, Hw.
  - rewrite IH. reflexivity.
Qed.

Lemma py_strip_app_space_l w l : all_space w = true -> py_strip (w ++ l) = py_strip l.
Proof. intros Hw. unfold py_strip. rewrite lstrip_app_space_l by exact Hw. reflexivity. Qed.

Lemma py_strip_app_space_r l w : all_space w = true -> py_strip (l ++ w) = py_strip l.
Proof.
  intros Hw. unfold py_strip. rewrite lstrip_app_space_r by exact Hw.
  destruct (lstrip l) as [|c x] eqn:E; [reflexivity|].
  apply rstrip_app_space_r, Hw.
Qed.

Lemma py_strip_all_space w : all_space w = true -> py_strip w = EmptyString.
Proof. intros Hw. unfold py_strip. rewrite lstrip_all_space by exact Hw. reflexivity. Qed.

Lemma lstrip_decomp s : exists w, all_space w = true /\ s = (w ++ lstrip s)%string.
Proof.
  induction s as [|c s IH]; simpl.
  - exists EmptyString. split; reflexivity.
  - destruct (py_isspace c) eqn:Hc.
    + destruct IH as [w [Hw E]]. exists (String c w). simpl. rewrite Hc, Hw.
      split; [reflexivity|]. simpl. rewrite <- E. reflexivity.
    + exists EmptyString. split; reflexivity.
Qed.

Lemma rstrip_decomp s : exists w, all_space w = true /\ s = (rstrip s ++ w)%string.
Proof.
  induction s as [|c s IH]; simpl.
  - exists EmptyString. split; reflexivity.
  - destruct IH as [w [Hw E]].
    destruct (rstrip s) as [|c' r] eqn:Er.
    + simpl in E. subst s. destruct (py_isspace c) eqn:Hc.
      * exists (String c w). simpl. rewrite Hc, Hw. split; reflexivity.
      * exists w. split; [exact Hw | reflexivity].
    + exists w. split; [exact Hw|]. simpl. f_equal. exact E.
Qed.

Lemma py_split_nl_nonempty s : py_split_nl s <> [].
Proof.
  induction s as [|c s IH]; simpl; [discriminate|].
  destruct (Ascii.eqb c "010"%char); [discriminate|].
  destruct (py_split_nl s); discriminate.
Qed.

(** Splitting a concatenation: the last piece of [x] joins the first piece
    of [y]. *)
Lemma py_split_nl_app x :
  exists init lst,
    py_split_nl x = (init ++ [lst])%list /\
    Forall (fun p => all_space x = true -> all_space p = true) (lst :: init) /\
    forall y h t, py_split_nl y = h :: t ->
      py_split_nl (x ++ y) = (init ++ (lst ++ h)%string :: t)%list.
Proof.
  induction x as [|c x IH].
  - exists [], EmptyString. split; [reflexivity|]. split.
    + constructor; [reflexivity | constructor].
    + intros y h t Hy. exact Hy.
  - destruct IH as [init [lst [Hx [Hsp Happ]]]].
    simpl. destruct (Ascii.eqb c "010"%char) eqn:Hc.
    + exists (EmptyString :: init), lst. rewrite Hx. split; [reflexivity|]. split.
      * inversion Hsp as [|? ? Hl Hi]; subst.
        constructor; [|constructor; [reflexivity|]].
        -- intros H. apply Hl. simpl in H. apply andb_true_iff in H as [_ H]. exact H.
        -- eapply Forall_impl; [|exact Hi]. intros p Hp H. apply Hp.
           simpl in H. apply andb_true_iff in H as [_ H]. exact H.
      * intros y h t Hy. rewrite (Happ y h t Hy). reflexivity.
    + rewrite Hx. destruct init as [|p0 init].
      * exists [], (String c lst). split; [reflexivity|]. split.
        -- inversion Hsp as [|? ? Hl _]; subst. constructor; [|constructor].
           intros H. simpl in H |- *. apply andb_true_iff in H as [H1 H2].
           rewrite H1. apply Hl, H2.
        -- intros y h t Hy. rewrite (Happ y h t Hy). reflexivity.
      * exists (String c p0 :: init), lst. split; [reflexivity|]. split.
        -- inversion Hsp as [|? ? Hl Hi]; subst. inversion Hi as [|? ? Hp0 Hi']; subst.
           constructor; [|constructor].
           ++ intros H. simpl in H. apply andb_true_iff in H as [_ H]. apply Hl, H.
           ++ intros H. simpl in H |- *. apply andb_true_iff in H as [H1 H2].
              rewrite H1. apply Hp0, H2.
           ++ eapply Forall_impl; [|exact Hi']. intros p Hp H. apply Hp.
              simpl in H. apply andb_true_iff in H as [_ H]. exact H.
        -- intros y h t Hy. rewrite (Happ y h t Hy). reflexivity.
Qed.

Lemma label_rest_empty labels : label_rest labels EmptyString = None.
Proof.
  induction labels as [|w ws IH]; simpl; [reflexivity|].
  destruct w; exact IH.
Qed.

Lemma label_line_strip_empty l : py_strip l = EmptyString -> label_line l = None.
Proof.
  intros H. unfold label_line. rewrite H, !label_rest_empty. reflexivity.
Qed.

(** Whitespace around the text does not change its label lines. *)
Lemma label_lines_strip s : label_lines (py_strip s) = label_lines s.
Proof.
  set (G := fun l => opt_list (label_line l)).
  assert (GL : forall w l, all_space w = true -> G (w ++ l)%string = G l).
  { intros w l Hw. unfold G, label_line. rewrite py_strip_app_space_l by exact Hw.
    reflexivity. }
  assert (GR : forall l w, all_space w = true -> G (l ++ w)%string = G l).
  { intros l w Hw. unfold G, label_line. rewrite py_strip_app_space_r by exact Hw.
    reflexivity. }
  assert (G0 : forall w, all_space w = true -> G w = []).
  { intros w Hw. unfold G. rewrite label_line_strip_empty
      by (apply py_strip_all_space, Hw). reflexivity. }
  assert (GF : forall ps, Forall (fun p => all_space p = true) ps -> flat_map G ps = []).
  { induction ps as [|p ps IH]; simpl; [reflexivity|].
    intros Hf. inversion Hf; subst. rewrite G0, IH by assumption. reflexivity. }
  unfold label_lines. fold G.
  destruct (lstrip_decomp s) as [w1 [Hw1 E1]].
  destruct (rstrip_decomp (lstrip s)) as [w2 [Hw2 E2]].
  change (rstrip (lstrip s)) with (py_strip s) in E2.
  set (p := py_strip s) in *. clearbody p.
  rewrite E2 in E1. rewrite E1. clear E1 E2.
  destruct (py_split_nl_app w1) as [i1 [l1 [_ [S1 A1]]]].
  destruct (py_split_nl_app p) as [ip [lp [Sp [_ Ap]]]].
  destruct (py_split_nl_app w2) as [i2 [l2 [S2 [F2 _]]]].
  assert (Hs1 : Forall (fun q => all_space q = true) (l1 :: i1)).
  { eapply Forall_impl; [|exact S1]. intros q Hq. apply Hq, Hw1. }
  assert (Hs2 : Forall (fun q => all_space q = true) (l2 :: i2)).
  { eapply Forall_impl; [|exact F2]. intros q Hq. apply Hq, Hw2. }
  inversion Hs1 as [|? ? Hl1 Hi1]; subst.
  inversion Hs2 as [|? ? Hl2 Hi2]; subst.
  rewrite Sp.
  destruct (i2 ++ [l2])%list as [|h2 t2] eqn:E2.
  { destruct i2; discriminate. }
  assert (Ht2 : Forall (fun q => all_space q = true) (h2 :: t2)).
  { rewrite <- E2. apply Forall_app; split; [exact Hi2 | constructor; [exact Hl2 | constructor]]. }
  inversion Ht2 as [|? ? Hh2 Ht2']; subst.
  pose proof (Ap w2 h2 t2 S2) as Hp.
  destruct ip as [|q ip]; simpl in Hp.
  - rewrite (A1 _ _ _ Hp), (flat_map_app G i1), (GF i1 Hi1). simpl.
    rewrite (GL l1 _ Hl1), (GR lp h2 Hh2), (GF t2 Ht2'). reflexivity.
  - rewrite (A1 _ _ _ Hp), (flat_map_app G i1), (GF i1 Hi1). simpl.
    rewrite (GL l1 q Hl1), !flat_map_app. simpl.
    rewrite (GR lp h2 Hh2), (GF t2 Ht2'). reflexivity.
Qed.

Lemma prefix_app (a b : string) : String.prefix a (a ++ b) = true.
Proof.
  induction a as [|c a IH]; [destruct b; reflexivity|]. simpl.
  destruct (ascii_dec c c) as [_|n]; [exact IH | contradiction n; reflexivity].
Qed.

Lemma prefix_join_space x xs : String.prefix x (join_space (x :: xs)) = true.
Proof.
  destruct xs as [|y ys]; simpl.
  - rewrite <- (sapp_nil_r x) at 2. apply prefix_app.
  - apply prefix_app.
Qed.

Lemma flush_pending sp cur pend :
  pending sp cur pend -> Forall2 turn_of_label (flush sp cur) pend.
Proof.
  intros [[-> ->] | [s [rest [conts [-> [-> ->]]]]]]; simpl.
  - constructor.
  - constructor; [|constructor]. split; [reflexivity|]. apply prefix_join_space.
Qed.

Lemma parse_lines_labels lines sp cur acc pend pairs :
  Forall2 turn_of_label acc pairs -> pending sp cur pend ->
  Forall2 turn_of_label (parse_lines lines sp cur acc)
    (pairs ++ pend ++ flat_map (fun l => opt_list (label_line l)) lines).
Proof.
  revert sp cur acc pend pairs.
  induction lines as [|l ls IH]; intros sp cur acc pend pairs Hacc Hp; cbn [parse_lines].
  - simpl. rewrite app_nil_r. apply Forall2_app; [exact Hacc | apply flush_pending, Hp].
  - cbn [flat_map]. unfold label_line at 1.
    destruct (String.eqb (py_strip l) EmptyString) eqn:He.
    + apply String.eqb_eq in He. rewrite He, !label_rest_empty. simpl.
      apply IH; assumption.
    + assert (Hnext : forall s rest,
        Forall2 turn_of_label (parse_lines ls (Some s) [rest] (acc ++ flush sp cur))
          (pairs ++ pend ++ opt_list (Some (s, rest)) ++
           flat_map (fun l => opt_list (label_line l)) ls)).
      { intros s rest. rewrite (app_assoc pairs pend).
        apply (IH (Some s) [rest] _ [(s, rest)]).
        - apply Forall2_app; [exact Hacc | apply flush_pending, Hp].
        - right. exists s, rest, []. repeat split. }
      destruct (label_rest human_labels (py_strip l)) as [rest|].
      * apply Hnext.
      * destruct (label_rest ai_labels (py_strip l)) as [rest|].
        -- apply Hnext.
        -- simpl. apply IH; [exact Hacc|].
           destruct Hp as [[-> ->] | [s [rest [conts [-> [-> ->]]]]]].
           ++ left. split; reflexivity.
           ++ right. exists s, rest, (conts ++ [py_strip l])%list. repeat split.
Qed.

Lemma parse_conversation_labels input :
  Forall2 turn_of_label (parse_conversation input) (label_lines input).
Proof.
  rewrite <- label_lines_strip. unfold parse_conversation, label_lines.
  apply (parse_lines_labels _ None [] [] [] []); [constructor | left; split; reflexivity].
Qed.

(** C7 (amended): [parse_conversation] returns one turn per label line of
    the input, in order (two label lines of the same speaker give two
    turns); each turn has the speaker of its label line, and its text starts
    with what follows that line's label and the whitespace after it.  Only
    one label is removed, so the text may itself start with a label. *)
Theorem parse_turns_follow_labels input :
  length (parse_conversation input) = length (label_lines input) /\
  Forall2 turn_of_label (parse_conversation input) (label_lines input).
Proof.
  pose proof (parse_conversation_labels input) as H.
  split; [exact (Forall2_length H) | exact H].
Qed.

(** C8: a text without label lines (the empty text among them) parses to
    no turns, its analysis has every score and count 0 and empty lists, and
    the report is the one of that all-zero analysis. *)
Theorem no_labels_empty_analysis input :
  label_lines input = [] ->
  parse_conversation input = [] /\
  snd (analyze_text input) = empty_analysis /\
  format_report (snd (analyze_text input)) = format_report empty_analysis.
Proof.
  intros Hl.
  pose proof (parse_conversation_labels input) as H. rewrite Hl in H.
  apply Forall2_length, length_zero_iff_nil in H as Hp. clear H.
  assert (Ha : snd (analyze_text input) = empty_analysis).
  { unfold analyze_text. rewrite Hp. vm_compute. reflexivity. }
  rewrite Ha. split; [exact Hp | split; reflexivity].
Qed.

Lemma no_labels_empty_analysis_witness :
  label_lines "hello
world" = [] /\ parse_conversation "hello
world" = [].
Proof.
  split; [vm_compute; reflexivity|].
  apply (no_labels_empty_analysis "hello
world"). vm_compute. reflexivity.
Defined.

(** ** Binary64 division of two [int]s, then [int] *)

Lemma digits2_pos_size p : digits2_pos p = Pos.size p.
Proof. induction p as [p IH|p IH|]; simpl; rewrite ?IH; reflexivity. Qed.

Lemma size_bounds p :
  2 ^ (Zpos (Pos.size p) - 1) <= Zpos p < 2 ^ Zpos (Pos.size p).
Proof.
  induction p as [p IH|p IH|]; cbn [Pos.size].
  - rewrite Pos2Z.inj_succ, Z.pow_succ_r by lia.
    replace (Z.succ (Zpos (Pos.size p)) - 1) with (Z.succ (Zpos (Pos.size p) - 1)) by lia.
    rewrite Z.pow_succ_r by lia. rewrite Pos2Z.inj_xI. lia.
  - rewrite Pos2Z.inj_succ, Z.pow_succ_r by lia.
    replace (Z.succ (Zpos (Pos.size p)) - 1) with (Z.succ (Zpos (Pos.size p) - 1)) by lia.
    rewrite Z.pow_succ_r by lia. rewrite (Pos2Z.inj_xO p). lia.
  - simpl. lia.
Qed.

Lemma size_of_bounds p k :
  1 <= k -> 2 ^ (k - 1) <= Zpos p < 2 ^ k -> Zpos (Pos.size p) = k.
Proof.
  intros Hk [Hlo Hhi]. pose proof (size_bounds p) as [Slo Shi].
  destruct (Z.lt_trichotomy (Zpos (Pos.size p)) k) as [Hlt|[Heq|Hgt]]; [|exact Heq|].
  - pose proof (Z.pow_le_mono_r 2 (Zpos (Pos.size p)) (k - 1) ltac:(lia) ltac:(lia)). lia.
  - pose proof (Z.pow_le_mono_r 2 k (Zpos (Pos.size p) - 1) ltac:(lia) ltac:(lia)). lia.
Qed.

Lemma size_le_of_lt p k : 0 <= k -> Zpos p < 2 ^ k -> Zpos (Pos.size p) <= k.
Proof.
  intros Hk H. pose proof (size_bounds p) as [Slo _].
  destruct (Z.le_gt_cases (Zpos (Pos.size p)) k) as [|Hgt]; [assumption|].
  pose proof (Z.pow_le_mono_r 2 k (Zpos (Pos.size p) - 1) ltac:(lia) ltac:(lia)). lia.
Qed.

(** Adding one does not change a quotient unless it reaches a multiple. *)
Lemma div_succ_same x m :
  0 < m -> (x + 1) mod m <> 0 -> (x + 1) / m = x / m.
Proof.
  intros Hm Hne. pose proof (Z.div_mod x m ltac:(lia)) as Ex.
  pose proof (Z.mod_pos_bound x m Hm) as Bx.
  destruct (Z.eq_dec (x mod m) (m - 1)) as [Hr|Hr].
  - exfalso. apply Hne.
    replace (x + 1) with ((x / m + 1) * m) by lia. apply Z.mod_mul. lia.
  - symmetry. apply (Z.div_unique (x + 1) m (x / m) (x mod m + 1)); lia.
Qed.

(** The quotient [a * 2^s / b] is never one below a multiple of [2^s]
    when [b < 2^s]. *)
Lemma scaled_quot_not_pred a b s K :
  0 < b -> 0 <= s -> b < 2 ^ s -> a * 2 ^ s / b + 1 <> K * 2 ^ s.
Proof.
  intros Hb Hs Hbs Heq.
  pose proof (Z.pow_pos_nonneg 2 s ltac:(lia) Hs) as Hp.
  pose proof (Z.div_mod (a * 2 ^ s) b ltac:(lia)) as E.
  pose proof (Z.mod_pos_bound (a * 2 ^ s) b Hb) as B.
  set (q := a * 2 ^ s / b) in *. set (r := (a * 2 ^ s) mod b) in *.
  assert (Ha : a < b * K).
  { apply (Z.mul_lt_mono_pos_r (2 ^ s)); [exact Hp|]. nia. }
  assert (a * 2 ^ s <= (b * K - 1) * 2 ^ s) by (apply Z.mul_le_mono_nonneg_r; lia).
  nia.
Qed.

Lemma binary_round_aux_split q e l :
  binary_round_aux prec emax false q e l =
  let '(mrs, e') := shr_fexp prec emax q e l in
  round_tail (round_nearest_even (shr_m mrs) (loc_of_shr_record mrs)) e'.
Proof. reflexivity. Qed.

Lemma fexp_val x : -1000 <= x -> fexp prec emax x = x - 53.
Proof. intros H. unfold fexp, emin, prec, emax. lia. Qed.

Lemma shr_fexp_53 q e l :
  2 ^ 52 <= q < 2 ^ 53 -> -900 <= e ->
  shr_fexp prec emax q e l = (shr_record_of_loc q l, e).
Proof.
  intros Hq He. destruct q as [|pq|pq]; [lia| |lia].
  unfold shr_fexp. cbn [Zdigits2]. rewrite digits2_pos_size.
  rewrite (size_of_bounds pq 53) by (lia || exact Hq).
  rewrite fexp_val by lia. replace (53 + e - 53 - e) with 0 by lia. reflexivity.
Qed.

Lemma shr_fexp_54 q e l :
  2 ^ 53 <= q < 2 ^ 54 -> -900 <= e ->
  shr_fexp prec emax q e l = (shr_1 (shr_record_of_loc q l), e + 1).
Proof.
  intros Hq He. destruct q as [|pq|pq]; [lia| |lia].
  unfold shr_fexp. cbn [Zdigits2]. rewrite digits2_pos_size.
  rewrite (size_of_bounds pq 54) by (lia || exact Hq).
  rewrite fexp_val by lia. replace (54 + e - 53 - e) with 1 by lia. reflexivity.
Qed.

Lemma shr_m_of_loc m l : shr_m (shr_record_of_loc m l) = m.
Proof. destruct l as [|[| |]]; reflexivity. Qed.

Lemma loc_of_record_of_loc m l : loc_of_shr_record (shr_record_of_loc m l) = l.
Proof. destruct l as [|[| |]]; reflexivity. Qed.

Lemma rne_cases m l :
  round_nearest_even m l = m \/ round_nearest_even m l = m + 1.
Proof.
  destruct l as [|[| |]]; simpl; auto. destruct (Z.even m); auto.
Qed.

(** The renormalisation keeps the value of a mantissa in [[2^52, 2^53]]. *)
Lemma round_tail_spec M e :
  2 ^ 52 <= M <= 2 ^ 53 -> -900 <= e <= -2 ->
  exists M2 e2, round_tail M e = S754_finite false M2 e2 /\ e2 < 0 /\
    Zpos M2 / 2 ^ (- e2) = M / 2 ^ (- e).
Proof.
  intros HM He. unfold round_tail.
  destruct (Z.eq_dec M (2 ^ 53)) as [->|Hne].
  - rewrite shr_fexp_54 by lia. simpl.
    replace (e + 1 <=? 971) with true by (symmetry; apply Z.leb_le; lia).
    exists (2 ^ 52)%positive, (e + 1). split; [reflexivity|]. split; [lia|].
    replace (- e) with (- (e + 1) + 1) by lia.
    rewrite Z.pow_add_r by lia.
    change (Z.pow_pos 2 53) with (2 ^ 52 * 2 ^ 1). change (Z.pos (2 ^ 52)) with (2 ^ 52).
    rewrite Z.div_mul_cancel_r by (try apply Z.pow_nonzero; lia). reflexivity.
  - rewrite shr_fexp_53 by lia. rewrite shr_m_of_loc.
    destruct M as [|pm|pm]; [lia| |lia].
    replace (e <=? emax - prec) with true by (symmetry; apply Z.leb_le; unfold emax, prec; lia).
    exists pm, e. split; [reflexivity|]. split; [lia | reflexivity].
Qed.

Lemma shr_1_odd_m p l : shr_m (shr_1 (shr_record_of_loc (Zpos p~1) l)) = Zpos p.
Proof. destruct l as [|[| |]]; reflexivity. Qed.

Lemma shr_1_even_round p l :
  let r := shr_1 (shr_record_of_loc (Zpos p~0) l) in
  round_nearest_even (shr_m r) (loc_of_shr_record r) = Zpos p.
Proof. destruct l as [|[| |]]; reflexivity. Qed.

(** [binary_round_aux] on a quotient of 53 or 54 bits: the mantissa is the
    quotient shifted by [n] bits, or one more, and rounds up after a shift
    only when the bit shifted out is 1. *)
Lemma round_aux_spec q e l :
  2 ^ 52 <= q < 2 ^ 54 -> -900 <= e <= -3 ->
  exists n M M2 e2,
    ((n = 0 /\ q < 2 ^ 53) \/ (n = 1 /\ 2 ^ 53 <= q)) /\
    (M = q / 2 ^ n \/ (M = q / 2 ^ n + 1 /\ (n = 0 \/ Z.odd q = true))) /\
    binary_round_aux prec emax false q e l = S754_finite false M2 e2 /\
    e2 < 0 /\ Zpos M2 / 2 ^ (- e2) = M / 2 ^ (- (e + n)).
Proof.
  intros Hq He. rewrite binary_round_aux_split.
  destruct (Z.lt_ge_cases q (2 ^ 53)) as [Hlt|Hge].
  - rewrite shr_fexp_53 by lia. cbv beta iota.
    rewrite shr_m_of_loc, loc_of_record_of_loc.
    assert (Hq1 : q / 2 ^ 0 = q) by (rewrite Z.pow_0_r, Z.div_1_r; reflexivity).
    destruct (rne_cases q l) as [E|E]; rewrite E.
    + destruct (round_tail_spec q e) as [M2 [e2 [R [Hn V]]]]; [lia|lia|].
      exists 0, q, M2, e2. rewrite Z.add_0_r.
      split; [left; lia|]. split; [left; symmetry; exact Hq1|]. auto.
    + destruct (round_tail_spec (q + 1) e) as [M2 [e2 [R [Hn V]]]]; [lia|lia|].
      exists 0, (q + 1), M2, e2. rewrite Z.add_0_r.
      split; [left; lia|]. split; [right; rewrite Hq1; auto|]. auto.
  - rewrite shr_fexp_54 by lia. cbv beta iota.
    destruct q as [|pq|pq]; [lia| |lia]. destruct pq as [p|p|]; [| |lia].
    + assert (Hd : Zpos p~1 / 2 ^ 1 = Zpos p).
      { rewrite Pos2Z.inj_xI. change (2 ^ 1) with 2.
        symmetry. apply (Z.div_unique _ _ _ 1); lia. }
      rewrite shr_1_odd_m.
      destruct (rne_cases (Zpos p) (loc_of_shr_record (shr_1 (shr_record_of_loc (Zpos p~1) l))))
        as [E|E]; rewrite E.
      * destruct (round_tail_spec (Zpos p) (e + 1)) as [M2 [e2 [R [Hn V]]]];
          [rewrite Pos2Z.inj_xI in Hq, Hge; lia | lia |].
        exists 1, (Zpos p), M2, e2.
        split; [right; rewrite Pos2Z.inj_xI in Hge; lia|]. split; [left; auto|]. auto.
      * destruct (round_tail_spec (Zpos p + 1) (e + 1)) as [M2 [e2 [R [Hn V]]]];
          [rewrite Pos2Z.inj_xI in Hq, Hge; lia | lia |].
        exists 1, (Zpos p + 1), M2, e2.
        split; [right; rewrite Pos2Z.inj_xI in Hge; lia|]. split; [right; rewrite Hd; auto|]. auto.
    + assert (Hd : Zpos p~0 / 2 ^ 1 = Zpos p).
      { rewrite (Pos2Z.inj_xO p). change (2 ^ 1) with 2.
        symmetry. apply (Z.div_unique _ _ _ 0); lia. }
      rewrite shr_1_even_round.
      destruct (round_tail_spec (Zpos p) (e + 1)) as [M2 [e2 [R [Hn V]]]];
        [rewrite (Pos2Z.inj_xO p) in Hq, Hge; lia | lia |].
      exists 1, (Zpos p), M2, e2.
      split; [right; rewrite (Pos2Z.inj_xO p) in Hge; lia|]. split; [left; auto|]. auto.
Qed.

Lemma pow2_lt_exp x y : 0 <= x -> 0 <= y -> 2 ^ x < 2 ^ y -> x < y.
Proof. intros Hx Hy H. apply (Z.pow_lt_mono_r_iff 2); lia. Qed.

Lemma div_core_eq pa pb s :
  s = 53 + Zpos (Pos.size pb) - Zpos (Pos.size pa) ->
  Zpos (Pos.size pb) <= 53 -> 0 < s ->
  SFdiv_core_binary prec emax (Zpos pa) 0 (Zpos pb) 0 =
  (Zpos pa * 2 ^ s / Zpos pb, - s, new_location (Zpos pb) ((Zpos pa * 2 ^ s) mod Zpos pb)).
Proof.
  intros Es Hd2 Hs. unfold SFdiv_core_binary. cbn [Zdigits2].
  rewrite (digits2_pos_size pa), (digits2_pos_size pb).
  change IntDef.Z.min with Z.min. change IntDef.Z.div_eucl with Z.div_eucl.
  change IntDef.Z.shiftl with Z.shiftl.
  rewrite fexp_val by lia.
  replace (Z.min (Zpos (Pos.size pa) + 0 - (Zpos (Pos.size pb) + 0) - 53) (0 - 0)) with (- s)
    by lia.
  replace (0 - 0 - - s) with s by lia.
  clear Es. destruct s as [|ps|ps]; try lia.
  rewrite Z.shiftl_mul_pow2 by lia.
  unfold Z.div, Z.modulo. destruct (Z.div_eucl _ _). reflexivity.
Qed.

(** [int(a / b)] for [int]s [0 <= a < 2^53], [0 < b < 2^53] with
    [a < 128 * b] is the floor of the exact quotient. *)
Lemma int_truediv_floor a b :
  0 <= a -> 0 < b -> a < 2 ^ 53 -> b < 2 ^ 53 -> a < 128 * b ->
  py_int (int_truediv a b) = a / b.
Proof.
  intros Ha Hb Ha53 Hb53 Hab.
  destruct b as [|pb|pb]; try lia.
  destruct a as [|pa|pa]; try lia; [reflexivity|].
  pose proof (size_bounds pa) as [A1 A2]. pose proof (size_bounds pb) as [B1 B2].
  set (d1 := Zpos (Pos.size pa)) in *. set (d2 := Zpos (Pos.size pb)) in *.
  assert (Hd1 : d1 <= 53) by (apply size_le_of_lt; lia).
  assert (Hd2 : d2 <= 53) by (apply size_le_of_lt; lia).
  assert (Hd12 : d1 <= d2 + 7).
  { assert (2 ^ (d1 - 1) < 2 ^ (d2 + 7)).
    { rewrite Z.pow_add_r by lia. change (2 ^ 7) with 128. lia. }
    apply pow2_lt_exp in H; lia. }
  set (s := 53 + d2 - d1).
  assert (Hs : 0 < s) by lia.
  unfold int_truediv, SFdiv.
  rewrite (div_core_eq pa pb s eq_refl Hd2 Hs). cbv beta iota. change (xorb false false) with false.
  set (a := Zpos pa) in *. set (b := Zpos pb) in *.
  set (q := a * 2 ^ s / b).
  assert (Ps : 0 < 2 ^ s) by (apply Z.pow_pos_nonneg; lia).
  assert (E1 : 2 ^ (d1 - 1) * 2 ^ s = 2 ^ 52 * 2 ^ d2)
    by (rewrite <- !Z.pow_add_r by lia; f_equal; unfold s; lia).
  assert (E2 : 2 ^ d2 = 2 * 2 ^ (d2 - 1))
    by (rewrite <- Z.pow_succ_r by lia; f_equal; lia).
  assert (E3 : 2 ^ d1 = 2 * 2 ^ (d1 - 1))
    by (rewrite <- Z.pow_succ_r by lia; f_equal; lia).
  assert (Hq : 2 ^ 52 <= q < 2 ^ 54).
  { split.
    - apply Z.div_le_lower_bound; [lia|]. nia.
    - apply Z.div_lt_upper_bound; [lia|].
      change (2 ^ 54) with (4 * 2 ^ 52). nia. }
  assert (Hbs : b < 2 ^ s).
  { assert (2 ^ d2 <= 2 ^ s) by (apply Z.pow_le_mono_r; unfold s; lia). lia. }
  destruct (round_aux_spec q (- s) (new_location b ((a * 2 ^ s) mod b)))
    as [n [M [M2 [e2 [Hn [HM [R [He2 V]]]]]]]]; [exact Hq | unfold s; lia |].
  rewrite R. unfold py_int.
  replace (0 <=? e2) with false by (symmetry; apply Z.leb_gt; exact He2).
  rewrite V. replace (- (- s + n)) with (s - n) by lia.
  assert (Hn2 : 0 < 2 ^ n) by (apply Z.pow_pos_nonneg; lia).
  assert (Hu : 0 < 2 ^ (s - n)) by (apply Z.pow_pos_nonneg; lia).
  assert (Hsplit : 2 ^ n * 2 ^ (s - n) = 2 ^ s)
    by (rewrite <- Z.pow_add_r by lia; f_equal; lia).
  assert (Hfloor : q / 2 ^ n / 2 ^ (s - n) = a / b).
  { rewrite Z.div_div, Hsplit by lia. unfold q.
    rewrite Z.div_div by lia.
    apply Z.div_mul_cancel_r; lia. }
  destruct HM as [-> | [-> Hodd]]; [exact Hfloor|].
  rewrite div_succ_same; [exact Hfloor | lia |].
  intros H0. apply Z.mod_divide in H0 as [K HK]; [|lia].
  apply (scaled_quot_not_pred a b s K); [lia | lia | exact Hbs |].
  fold q. destruct Hn as [[-> _] | [-> _]].
  - rewrite Z.pow_0_r, Z.div_1_r in HK. rewrite Z.sub_0_r in HK. exact HK.
  - destruct Hodd as [Hn0 | Hodd]; [lia|].
    pose proof (Z.div_mod q 2 ltac:(lia)) as Dq.
    rewrite Zmod_odd, Hodd in Dq. change (2 ^ 1) with 2 in HK.
    rewrite <- Hsplit. change (2 ^ 1) with 2. lia.
Qed.

Lemma dimension_score_floor cnt n :
  (cnt <= n)%nat -> 100 * Z.of_nat n < 2 ^ 53 ->
  dimension_score cnt n = 100 * Z.of_nat cnt / Z.max (Z.of_nat n) 1.
Proof.
  intros Hc Hn. unfold dimension_score.
  apply int_truediv_floor; lia.
Qed.

(** C2 (amended): on a turn list with fewer than 2^53 / 100 human turns,
    each of the four human-marker scores is the floor of
    [100 * count / max(human turns, 1)], computed exactly; the overall score
    is [int] of the binary64 sum [0.25*c + 0.20*a + 0.20*s + 0.15*k + 0.20*r]
    of the five integer sub-scores, evaluated left to right, which is not
    always the truncation of the exact sum. *)
Theorem dimension_scores_floor (analyzed : list Turn) :
  100 * Z.of_nat (length (filter is_human analyzed)) < 2 ^ 53 ->
  let hs := filter is_human analyzed in
  let nh := Z.max (Z.of_nat (length hs)) 1 in
  let a := aggregate analyzed in
  curiosity_score a = 100 * Z.of_nat (count curiosity_shown hs) / nh /\
  acknowledgment_score a = 100 * Z.of_nat (count acknowledgment_given hs) / nh /\
  space_score a = 100 * Z.of_nat (count space_given hs) / nh /\
  continuity_score a = 100 * Z.of_nat (count continuity_referenced hs) / nh /\
  overall_score a = py_int (fadd (fadd (fadd (fadd
      (fmul (float_of_int (curiosity_score a)) lit_0_25)
      (fmul (float_of_int (acknowledgment_score a)) lit_0_20))
      (fmul (float_of_int (space_score a)) lit_0_20))
      (fmul (float_of_int (continuity_score a)) lit_0_15))
      (fmul (float_of_int (reciprocity_score a)) lit_0_20)).
Proof.
  intros Hn hs nh a. unfold a, aggregate. cbn [curiosity_score acknowledgment_score
    space_score continuity_score overall_score reciprocity_score].
  unfold count. fold hs.
  rewrite !dimension_score_floor by (apply length_filter_le || exact Hn).
  repeat split; reflexivity.
Qed.

Lemma dimension_scores_floor_witness :
  100 * Z.of_nat (length (filter is_human (annotated_turns mixed_turns))) < 2 ^ 53 /\
  curiosity_score (aggregate (annotated_turns mixed_turns)) = 50.
Proof.
  assert (H : 100 * Z.of_nat (length (filter is_human (annotated_turns mixed_turns))) < 2 ^ 53)
    by (vm_compute; reflexivity).
  split; [exact H|].
  destruct (dimension_scores_floor (annotated_turns mixed_turns) H) as [-> _].
  vm_compute. reflexivity.
Defined.

(** ** More of [parse_conversation] *)

Lemma rstrip_cons c x c' r :
  rstrip x = String c' r -> rstrip (String c x) = String c (String c' r).
Proof. intros H. simpl. rewrite H. reflexivity. Qed.

Lemma rstrip_idem s : rstrip (rstrip s) = rstrip s.
Proof.
  induction s as [|c s IH]; simpl; [reflexivity|].
  destruct (rstrip s) as [|c' r] eqn:E.
  - destruct (py_isspace c) eqn:Hc; simpl; [reflexivity|]. rewrite Hc. reflexivity.
  - exact (rstrip_cons c (String c' r) c' r IH).
Qed.

Lemma lstrip_nonspace_head c s : py_isspace c = false -> lstrip (String c s) = String c s.
Proof. intros H. simpl. rewrite H. reflexivity. Qed.

Lemma rstrip_head c s : py_isspace c = false -> exists r, rstrip (String c s) = String c r.
Proof.
  intros H. simpl. destruct (rstrip s) as [|c' r]; [rewrite H|]; eexists; reflexivity.
Qed.

Lemma lstrip_head s : lstrip s = EmptyString \/
  exists c r, lstrip s = String c r /\ py_isspace c = false.
Proof.
  induction s as [|c s IH]; simpl; [left; reflexivity|].
  destruct (py_isspace c) eqn:Hc; [exact IH|]. right. exists c, s. split; [reflexivity | exact Hc].
Qed.

Lemma py_strip_idem s : py_strip (py_strip s) = py_strip s.
Proof.
  unfold py_strip. destruct (lstrip_head s) as [E|[c [r [E Hc]]]]; rewrite E.
  - reflexivity.
  - destruct (rstrip_head c r Hc) as [r' E']. rewrite E', lstrip_nonspace_head by exact Hc.
    rewrite <- E'. apply rstrip_idem.
Qed.

Lemma label_line_strip l : label_line (py_strip l) = label_line l.
Proof. unfold label_line. rewrite py_strip_idem. reflexivity. Qed.

Lemma nonblank_lines_cons l ls :
  nonblank_lines (l :: ls) =
  if String.eqb (py_strip l) EmptyString then nonblank_lines ls
  else py_strip l :: nonblank_lines ls.
Proof. unfold nonblank_lines. simpl. destruct (String.eqb (py_strip l) EmptyString); reflexivity. Qed.

Lemma nonblank_lines_app a b :
  nonblank_lines (a ++ b)%list = (nonblank_lines a ++ nonblank_lines b)%list.
Proof. unfold nonblank_lines. rewrite map_app, filter_app. reflexivity. Qed.

Lemma nonblank_lines_flat_map ls :
  nonblank_lines ls =
  flat_map (fun l => if String.eqb (py_strip l) EmptyString then [] else [py_strip l]) ls.
Proof.
  induction ls as [|l ls IH]; [reflexivity|]. rewrite nonblank_lines_cons. simpl.
  destruct (String.eqb (py_strip l) EmptyString); simpl; rewrite IH; reflexivity.
Qed.

(** The parser's loop sees only the stripped non-blank lines. *)
Lemma parse_lines_nonblank L sp cur acc :
  parse_lines L sp cur acc = parse_lines (nonblank_lines L) sp cur acc.
Proof.
  revert sp cur acc. induction L as [|l ls IH]; intros sp cur acc; [reflexivity|].
  rewrite nonblank_lines_cons. cbn [parse_lines].
  destruct (String.eqb (py_strip l) EmptyString) eqn:E; [apply IH|].
  cbn [parse_lines]. rewrite py_strip_idem, E.
  destruct (label_rest human_labels (py_strip l)); [apply IH|].
  destruct (label_rest ai_labels (py_strip l)); apply IH.
Qed.

(** Whitespace around the text does not change its non-blank lines. *)
Lemma flat_map_split_strip {A} (G : string -> list A) s :
  (forall w l, all_space w = true -> G (w ++ l)%string = G l) ->
  (forall l w, all_space w = true -> G (l ++ w)%string = G l) ->
  (forall w, all_space w = true -> G w = []) ->
  flat_map G (py_split_nl (py_strip s)) = flat_map G (py_split_nl s).
Proof.
  intros GL GR G0.
  assert (GF : forall ps, Forall (fun p => all_space p = true) ps -> flat_map G ps = []).
  { induction ps as [|p ps IH]; simpl; [reflexivity|].
    intros Hf. inversion Hf; subst. rewrite G0, IH by assumption. reflexivity. }
  destruct (lstrip_decomp s) as [w1 [Hw1 E1]].
  destruct (rstrip_decomp (lstrip s)) as [w2 [Hw2 E2]].
  change (rstrip (lstrip s)) with (py_strip s) in E2.
  set (p := py_strip s) in *. clearbody p.
  rewrite E2 in E1. rewrite E1. clear E1 E2.
  destruct (py_split_nl_app w1) as [i1 [l1 [_ [S1 A1]]]].
  destruct (py_split_nl_app p) as [ip [lp [Sp [_ Ap]]]].
  destruct (py_split_nl_app w2) as [i2 [l2 [S2 [F2 _]]]].
  assert (Hs1 : Forall (fun q => all_space q = true) (l1 :: i1)).
  { eapply Forall_impl; [|exact S1]. intros q Hq. apply Hq, Hw1. }
  assert (Hs2 : Forall (fun q => all_space q = true) (l2 :: i2)).
  { eapply Forall_impl; [|exact F2]. intros q Hq. apply Hq, Hw2. }
  inversion Hs1 as [|? ? Hl1 Hi1]; subst.
  inversion Hs2 as [|? ? Hl2 Hi2]; subst.
  rewrite Sp.
  destruct (i2 ++ [l2])%list as [|h2 t2] eqn:E2.
  { destruct i2; discriminate. }
  assert (Ht2 : Forall (fun q => all_space q = true) (h2 :: t2)).
  { rewrite <- E2. apply Forall_app; split; [exact Hi2 | constructor; [exact Hl2 | constructor]]. }
  inversion Ht2 as [|? ? Hh2 Ht2']; subst.
  pose proof (Ap w2 h2 t2 S2) as Hp.
  destruct ip as [|q ip]; simpl in Hp.
  - rewrite (A1 _ _ _ Hp), (flat_map_app G i1), (GF i1 Hi1). simpl.
    rewrite (GL l1 _ Hl1), (GR lp h2 Hh2), (GF t2 Ht2'). reflexivity.
  - rewrite (A1 _ _ _ Hp), (flat_map_app G i1), (GF i1 Hi1). simpl.
    rewrite (GL l1 q Hl1), !flat_map_app. simpl.
    rewrite (GR lp h2 Hh2), (GF t2 Ht2'). reflexivity.
Qed.

Lemma nonblank_lines_strip s :
  nonblank_lines (py_split_nl (py_strip s)) = nonblank_lines (py_split_nl s).
Proof.
  rewrite !nonblank_lines_flat_map. apply flat_map_split_strip.
  - intros w l Hw. rewrite py_strip_app_space_l by exact Hw. reflexivity.
  - intros l w Hw. rewrite py_strip_app_space_r by exact Hw. reflexivity.
  - intros w Hw. rewrite py_strip_all_space by exact Hw. reflexivity.
Qed.

(** [text.strip()] before the split changes nothing. *)
Lemma parse_conversation_lines s :
  parse_conversation s = parse_lines (nonblank_lines (py_split_nl s)) None [] [].
Proof.
  unfold parse_conversation. rewrite parse_lines_nonblank, nonblank_lines_strip. reflexivity.
Qed.

Lemma py_split_nl_newline s t :
  py_split_nl (s ++ nl ++ t) = (py_split_nl s ++ py_split_nl t)%list.
Proof.
  destruct (py_split_nl_app s) as [i [l [Hs [_ A]]]].
  rewrite (A (nl ++ t) EmptyString (py_split_nl t) eq_refl), Hs, sapp_nil_r.
  rewrite <- app_assoc. reflexivity.
Qed.

Lemma nonblank_lines_all_space w :
  all_space w = true -> nonblank_lines (py_split_nl w) = [].
Proof.
  intros Hw. destruct (py_split_nl_app w) as [i [l [Hs [F _]]]]. rewrite Hs.
  assert (Fa : Forall (fun q => all_space q = true) (i ++ [l])).
  { inversion F as [|? ? Hl Hi]; subst. apply Forall_app; split.
    - eapply Forall_impl; [|exact Hi]. intros q Hq. apply Hq, Hw.
    - constructor; [apply Hl, Hw | constructor]. }
  clear Hs F. induction Fa as [|q qs Hq _ IH]; [reflexivity|].
  rewrite nonblank_lines_cons, py_strip_all_space by exact Hq. exact IH.
Qed.

Lemma parse_lines_acc L sp cur acc :
  parse_lines L sp cur acc = (acc ++ parse_lines L sp cur [])%list.
Proof.
  revert sp cur acc. induction L as [|l ls IH]; intros sp cur acc; cbn [parse_lines]; [reflexivity|].
  destruct (String.eqb (py_strip l) EmptyString); [apply IH|].
  destruct (label_rest human_labels (py_strip l)).
  - rewrite IH, (IH _ _ ([] ++ _)%list), app_assoc. reflexivity.
  - destruct (label_rest ai_labels (py_strip l)).
    + rewrite IH, (IH _ _ ([] ++ _)%list), app_assoc. reflexivity.
    + apply IH.
Qed.

(** With no speaker yet, the pending lines are never emitted. *)
Lemma parse_lines_none_cur L cur1 cur2 acc :
  parse_lines L None cur1 acc = parse_lines L None cur2 acc.
Proof.
  revert cur1 cur2 acc. induction L as [|l ls IH]; intros cur1 cur2 acc; cbn [parse_lines].
  - reflexivity.
  - destruct (String.eqb (py_strip l) EmptyString); [apply IH|].
    destruct (label_rest human_labels (py_strip l)); [reflexivity|].
    destruct (label_rest ai_labels (py_strip l)); [reflexivity | apply IH].
Qed.

(** Non-blank lines without a label only extend the pending text. *)
Lemma parse_lines_skip A B sp cur acc :
  Forall (fun x => label_line x = None /\ py_strip x <> EmptyString) A ->
  parse_lines (A ++ B) sp cur acc = parse_lines B sp (cur ++ map py_strip A)%list acc.
Proof.
  intros HA. revert sp cur acc. induction HA as [|x A [Hl Hx] _ IH]; intros sp cur acc.
  - simpl. rewrite app_nil_r. reflexivity.
  - cbn [app parse_lines].
    destruct (String.eqb_spec (py_strip x) EmptyString) as [E|_]; [contradiction|].
    unfold label_line in Hl.
    destruct (label_rest human_labels (py_strip x)); [discriminate|].
    destruct (label_rest ai_labels (py_strip x)); [discriminate|].
    rewrite IH, <- app_assoc. reflexivity.
Qed.

(** A label line closes what came before it: the turns of the lines
    before it, then the turns from it onwards. *)
Lemma parse_lines_split A x B sp cur acc :
  label_line x <> None ->
  parse_lines (A ++ x :: B) sp cur acc =
  (parse_lines A sp cur acc ++ parse_lines (x :: B) None [] [])%list.
Proof.
  intros Hx. revert sp cur acc. induction A as [|a A IH]; intros sp cur acc.
  - cbn [app parse_lines].
    assert (Hne : String.eqb (py_strip x) EmptyString = false).
    { apply String.eqb_neq. intros E. apply Hx, label_line_strip_empty, E. }
    rewrite Hne. unfold label_line in Hx.
    destruct (label_rest human_labels (py_strip x)).
    + rewrite parse_lines_acc. reflexivity.
    + destruct (label_rest ai_labels (py_strip x)); [|contradiction].
      rewrite parse_lines_acc. reflexivity.
  - cbn [app parse_lines].
    destruct (String.eqb (py_strip a) EmptyString); [apply IH|].
    destruct (label_rest human_labels (py_strip a)); [apply IH|].
    destruct (label_rest ai_labels (py_strip a)); apply IH.
Qed.

Lemma nonblank_no_labels L :
  flat_map (fun l => opt_list (label_line l)) L = [] ->
  Forall (fun x => label_line x = None /\ py_strip x <> EmptyString) (nonblank_lines L).
Proof.
  induction L as [|l ls IH]; intros H; [constructor|].
  simpl in H. destruct (label_line l) eqn:El; [discriminate|]. simpl in H.
  rewrite nonblank_lines_cons.
  destruct (String.eqb_spec (py_strip l) EmptyString) as [_|Hne]; [apply IH, H|].
  constructor; [|apply IH, H].
  rewrite label_line_strip, py_strip_idem. split; assumption.
Qed.

Lemma map_strip_nonblank L : map py_strip (nonblank_lines L) = nonblank_lines L.
Proof.
  induction L as [|l ls IH]; [reflexivity|]. rewrite nonblank_lines_cons.
  destruct (String.eqb (py_strip l) EmptyString); simpl; rewrite ?py_strip_idem, IH; reflexivity.
Qed.

(** Whitespace-only lines anywhere in the text (here: between two line
    breaks) are skipped: they neither end a turn nor add to its text. *)
Theorem parse_blank_lines_ignored s w t :
  all_space w = true ->
  parse_conversation (s ++ nl ++ w ++ nl ++ t) = parse_conversation (s ++ nl ++ t).
Proof.
  intros Hw. rewrite !parse_conversation_lines, !py_split_nl_newline, !nonblank_lines_app.
  rewrite (nonblank_lines_all_space w Hw). reflexivity.
Qed.

Lemma parse_blank_lines_ignored_witness :
  all_space "  " = true /\
  parse_conversation ("Human: hi" ++ nl ++ "  " ++ nl ++ "there") =
  parse_conversation ("Human: hi" ++ nl ++ "there").
Proof.
  assert (H : all_space "  " = true) by reflexivity.
  split; [exact H | apply (parse_blank_lines_ignored "Human: hi" "  " "there" H)].
Defined.

(** Lines before the first label line are dropped: a text without label
    lines in front of any text [t] changes nothing. *)
Theorem parse_preamble_ignored p t :
  label_lines p = [] ->
  parse_conversation (p ++ nl ++ t) = parse_conversation t.
Proof.
  intros Hp. rewrite !parse_conversation_lines, py_split_nl_newline, nonblank_lines_app.
  rewrite parse_lines_skip by (apply nonblank_no_labels, Hp).
  apply parse_lines_none_cur.
Qed.

Lemma parse_preamble_ignored_witness :
  label_lines "Transcript of a chat" = [] /\
  parse_conversation ("Transcript of a chat" ++ nl ++ "AI: hello") =
  parse_conversation "AI: hello".
Proof.
  assert (H : label_lines "Transcript of a chat" = []) by (vm_compute; reflexivity).
  split; [exact H | apply (parse_preamble_ignored _ "AI: hello" H)].
Defined.

(** Joining two texts with a line break, the second starting with a label
    line, parses to the turns of the first followed by those of the
    second. *)
Theorem parse_concat s t :
  label_line (first_line t) <> None ->
  parse_conversation (s ++ nl ++ t) = (parse_conversation s ++ parse_conversation t)%list.
Proof.
  intros Ht. rewrite !parse_conversation_lines, py_split_nl_newline, nonblank_lines_app.
  unfold first_line in Ht.
  destruct (py_split_nl t) as [|l0 ls] eqn:Et; [exfalso; exact (py_split_nl_nonempty t Et)|].
  simpl in Ht. rewrite nonblank_lines_cons.
  destruct (String.eqb_spec (py_strip l0) EmptyString) as [E|_].
  - exfalso. apply Ht, label_line_strip_empty, E.
  - apply parse_lines_split. rewrite label_line_strip. exact Ht.
Qed.

Lemma parse_concat_witness :
  label_line (first_line "AI: hello") <> None /\
  parse_conversation ("Human: hi" ++ nl ++ "AI: hello") =
  (parse_conversation "Human: hi" ++ parse_conversation "AI: hello")%list.
Proof.
  assert (H : label_line (first_line "AI: hello") <> None) by (vm_compute; discriminate).
  split; [exact H | apply (parse_concat "Human: hi" _ H)].
Defined.

(** A text whose first line is its only label line gives one turn: the
    text after the label, joined by single spaces with the stripped
    non-blank lines that follow. *)
Theorem parse_single_turn t sp rest :
  label_line (first_line t) = Some (sp, rest) ->
  label_lines t = [(sp, rest)] ->
  parse_conversation t =
  [new_turn sp (join_space (rest :: nonblank_lines (tl (py_split_nl t))))].
Proof.
  intros H1 H2. rewrite parse_conversation_lines. unfold first_line in H1.
  unfold label_lines in H2.
  destruct (py_split_nl t) as [|l0 ls] eqn:Et; [exfalso; exact (py_split_nl_nonempty t Et)|].
  cbn [hd tl] in H1 |- *. cbn [flat_map] in H2. rewrite H1 in H2.
  cbn [opt_list app] in H2. injection H2 as H2.
  rewrite nonblank_lines_cons.
  destruct (String.eqb_spec (py_strip l0) EmptyString) as [E|_].
  { rewrite label_line_strip_empty in H1 by exact E. discriminate. }
  cbn [parse_lines]. rewrite py_strip_idem.
  assert (Hne : String.eqb (py_strip l0) EmptyString = false).
  { apply String.eqb_neq. intros E. rewrite label_line_strip_empty in H1 by exact E. discriminate. }
  rewrite Hne.
  pose proof (nonblank_no_labels ls H2) as Hn.
  rewrite <- (app_nil_r (nonblank_lines ls)).
  unfold label_line in H1.
  destruct (label_rest human_labels (py_strip l0)) as [r|].
  - injection H1 as <- <-. rewrite parse_lines_skip by exact Hn.
    simpl. rewrite app_nil_r, map_strip_nonblank. reflexivity.
  - destruct (label_rest ai_labels (py_strip l0)) as [r|]; [|discriminate].
    injection H1 as <- <-. rewrite parse_lines_skip by exact Hn.
    simpl. rewrite app_nil_r, map_strip_nonblank. reflexivity.
Qed.

Lemma parse_single_turn_witness :
  let t := "User:   what is" ++ nl ++ nl ++ "  this?  " in
  label_line (first_line t) = Some ("human", "what is") /\
  label_lines t = [("human", "what is")] /\
  parse_conversation t = [new_turn "human" "what is this?"].
Proof.
  intros t.
  assert (H1 : label_line (first_line t) = Some ("human", "what is")) by (vm_compute; reflexivity).
  assert (H2 : label_lines t = [("human", "what is")]) by (vm_compute; reflexivity).
  split; [exact H1 | split; [exact H2|]].
  rewrite (parse_single_turn t "human" "what is" H1 H2). vm_compute. reflexivity.
Defined.

(** ** More of [analyze_turn] and [analyze_conversation] *)

Lemma m_dotstar_unfold s k :
  m DotStar s k = k s || match s with
                         | x :: s' => negb (Ascii.eqb x "010"%char) && m DotStar s' k
                         | [] => false
                         end.
Proof. destruct s; reflexivity. Qed.

Lemma search_list_unfold r s :
  search_list r s = m r s (fun _ => true) || match s with
                                             | [] => false
                                             | _ :: s' => search_list r s'
                                             end.
Proof. destruct s; reflexivity. Qed.

(** A match stays a match when text is appended after the subject. *)
Lemma m_app r : forall s b k k',
  m r s k = true -> (forall s', k s' = true -> k' (s' ++ b)%list = true) ->
  m r (s ++ b)%list k' = true.
Proof.
  induction r as [| c | r1 IH1 r2 IH2 | r1 IH1 r2 IH2 |]; intros s b k k' H Hk.
  - exact (Hk s H).
  - destruct s as [|x s]; [discriminate|]. simpl in H |- *.
    apply andb_true_iff in H as [H1 H2]. rewrite H1, (Hk s H2). reflexivity.
  - exact (IH1 s b _ _ H (fun s' Hs' => IH2 s' b k k' Hs' Hk)).
  - simpl in H |- *. apply orb_true_iff in H as [H|H].
    + rewrite (IH1 s b k k' H Hk). reflexivity.
    + rewrite (IH2 s b k k' H Hk), orb_true_r. reflexivity.
  - revert H. induction s as [|x s IHs]; intro H; rewrite m_dotstar_unfold in H |- *.
    + rewrite orb_false_r in H. rewrite (Hk [] H). reflexivity.
    + apply orb_true_iff in H as [H|H].
      * rewrite (Hk _ H). reflexivity.
      * apply andb_true_iff in H as [H1 H2].
        change ((x :: s) ++ b)%list with (x :: (s ++ b))%list. cbv beta iota.
        rewrite H1, (IHs H2), orb_true_r. reflexivity.
Qed.

Lemma search_list_app_r r s b :
  search_list r s = true -> search_list r (s ++ b)%list = true.
Proof.
  induction s as [|x s IHs]; intro H; rewrite search_list_unfold in H.
  - rewrite orb_false_r in H. rewrite search_list_unfold.
    rewrite (m_app r [] b _ _ H (fun _ _ => eq_refl)). reflexivity.
  - change ((x :: s) ++ b)%list with (x :: (s ++ b))%list. rewrite search_list_unfold.
    apply orb_true_iff in H as [H|H].
    + rewrite (m_app r (x :: s) b _ _ H (fun _ _ => eq_refl)). reflexivity.
    + rewrite (IHs H), orb_true_r. reflexivity.
Qed.

Lemma search_list_app_l r a s :
  search_list r s = true -> search_list r (a ++ s)%list = true.
Proof.
  induction a as [|x a IHa]; intro H; [exact H|].
  change ((x :: a) ++ s)%list with (x :: (a ++ s))%list.
  rewrite search_list_unfold, (IHa H), orb_true_r. reflexivity.
Qed.

Lemma list_ascii_of_string_sapp s1 s2 :
  list_ascii_of_string (s1 ++ s2) = (list_ascii_of_string s1 ++ list_ascii_of_string s2)%list.
Proof. induction s1 as [|c s1 IH]; simpl; [reflexivity|]. rewrite IH. reflexivity. Qed.

Lemma py_lower_sapp s1 s2 : py_lower (s1 ++ s2) = py_lower s1 ++ py_lower s2.
Proof. induction s1 as [|c s1 IH]; simpl; [reflexivity|]. rewrite IH. reflexivity. Qed.

Lemma any_match_extend ps a s b :
  any_match ps (py_lower s) = true -> any_match ps (py_lower (a ++ s ++ b)) = true.
Proof.
  unfold any_match. rewrite !existsb_exists. intros [p [Hin Hp]]. exists p. split; [exact Hin|].
  unfold search in *. rewrite !py_lower_sapp, !list_ascii_of_string_sapp.
  apply search_list_app_l, search_list_app_r, Hp.
Qed.

(** Adding text before or after a turn's text never clears a marker that
    [analyze_turn] sets: every pattern found in the text is still found. *)
Theorem analyze_turn_text_extend t p a b :
  (curiosity_shown (analyze_turn t p) = true ->
   curiosity_shown (analyze_turn (with_text t (a ++ text t ++ b)) p) = true) /\
  (acknowledgment_given (analyze_turn t p) = true ->
   acknowledgment_given (analyze_turn (with_text t (a ++ text t ++ b)) p) = true) /\
  (space_given (analyze_turn t p) = true ->
   space_given (analyze_turn (with_text t (a ++ text t ++ b)) p) = true) /\
  (continuity_referenced (analyze_turn t p) = true ->
   continuity_referenced (analyze_turn (with_text t (a ++ text t ++ b)) p) = true) /\
  (emotion_expressed (analyze_turn t p) = true ->
   emotion_expressed (analyze_turn (with_text t (a ++ text t ++ b)) p) = true) /\
  (uncertainty_allowed (analyze_turn t p) = true ->
   uncertainty_allowed (analyze_turn (with_text t (a ++ text t ++ b)) p) = true).
Proof.
  unfold analyze_turn, with_text. cbn [speaker text curiosity_shown acknowledgment_given
    space_given continuity_referenced emotion_expressed uncertainty_allowed].
  destruct (String.eqb (speaker t) "human").
  - cbn [curiosity_shown acknowledgment_given space_given continuity_referenced
      emotion_expressed uncertainty_allowed].
    repeat split; intro H; try exact H; try (apply any_match_extend; exact H).
    destruct p as [q|]; [|exact H].
    destruct (String.eqb (speaker q) "ai"); [apply any_match_extend|]; exact H.
  - cbn [curiosity_shown acknowledgment_given space_given continuity_referenced
      emotion_expressed uncertainty_allowed].
    repeat split; intro H; try exact H; apply any_match_extend; exact H.
Qed.

Lemma analyze_turn_text_extend_witness :
  curiosity_shown (analyze_turn (new_turn "human" "What do you think") None) = true /\
  curiosity_shown (analyze_turn (with_text (new_turn "human" "What do you think")
     ("So, " ++ text (new_turn "human" "What do you think") ++ " of it?")) None) = true.
Proof.
  assert (H : curiosity_shown (analyze_turn (new_turn "human" "What do you think") None) = true)
    by (vm_compute; reflexivity).
  split; [exact H|].
  exact (proj1 (analyze_turn_text_extend (new_turn "human" "What do you think") None
                  "So, " " of it?") H).
Defined.

Lemma analyze_turn_idem t p : analyze_turn (analyze_turn t p) p = analyze_turn t p.
Proof.
  destruct t as [sp tx c a s k e u]. unfold analyze_turn at 2.
  cbn [speaker text acknowledgment_given curiosity_shown space_given
       continuity_referenced emotion_expressed uncertainty_allowed].
  destruct (String.eqb sp "human") eqn:E; unfold analyze_turn;
    cbn [speaker text acknowledgment_given curiosity_shown space_given
         continuity_referenced emotion_expressed uncertainty_allowed]; rewrite E;
    [destruct p as [q|]; [destruct (String.eqb (speaker q) "ai")|]|]; reflexivity.
Qed.

Lemma annotate_idem L : forall st prev,
  NoDup L -> (forall r, prev = Some r -> ~ In r L) ->
  forall r, annotate (annotate st prev L) prev L r = annotate st prev L r.
Proof.
  induction L as [|r0 rest IH]; intros st prev Hnd Hp r; [reflexivity|].
  apply NoDup_cons_iff in Hnd as [Hr0 Hnd].
  cbn [annotate].
  set (A := analyze_turn (st r0) (option_map st prev)).
  set (u := upd st r0 A).
  set (st1 := annotate u (Some r0) rest).
  assert (E1 : st1 r0 = A).
  { unfold st1. rewrite annotate_notin by exact Hr0. unfold u, upd. rewrite Nat.eqb_refl. reflexivity. }
  assert (E2 : option_map st1 prev = option_map st prev).
  { destruct prev as [q|]; [|reflexivity]. cbn [option_map]. f_equal.
    assert (Hq : ~ In q (r0 :: rest)) by (apply Hp; reflexivity).
    unfold st1. rewrite annotate_notin by (intro H; apply Hq; right; exact H).
    unfold u, upd. destruct (Nat.eqb_spec q r0) as [->|]; [exfalso; apply Hq; left; reflexivity|].
    reflexivity. }
  rewrite E1, E2. fold A. unfold A at 1. rewrite analyze_turn_idem. fold A.
  rewrite (annotate_ext (upd st1 r0 A) st1 (Some r0) rest).
  - apply IH; [exact Hnd|]. intros r' E. injection E as <-. exact Hr0.
  - intro r'. unfold upd. destruct (Nat.eqb_spec r' r0) as [->|]; [symmetry; exact E1|reflexivity].
Qed.

(** Running [analyze_conversation] a second time on the Turn objects it
    has annotated (each object once in the list) changes no turn and
    returns the same analysis. *)
Theorem analyze_conversation_idem st L :
  NoDup L ->
  (forall r, fst (analyze_conversation (fst (analyze_conversation st L)) L) r =
             fst (analyze_conversation st L) r) /\
  snd (analyze_conversation (fst (analyze_conversation st L)) L) =
  snd (analyze_conversation st L).
Proof.
  intros Hnd. unfold analyze_conversation. cbn [fst snd].
  pose proof (annotate_idem L st None Hnd (fun r E => ltac:(discriminate E))) as Hi.
  split; [exact Hi|]. f_equal. apply map_ext. exact Hi.
Qed.

Lemma analyze_conversation_idem_witness :
  NoDup (refs_of (parse_conversation demo2)) /\
  snd (analyze_conversation (fst (analyze_text demo2)) (refs_of (parse_conversation demo2))) =
  snd (analyze_text demo2).
Proof.
  assert (H : NoDup (refs_of (parse_conversation demo2))) by apply seq_NoDup.
  split; [exact H|].
  exact (proj2 (analyze_conversation_idem (store_of (parse_conversation demo2)) _ H)).
Defined.

(** Turns appended to the list never change the annotation of the Turn
    objects that are not among the appended ones: the loop only looks
    backwards. *)
Theorem analyze_conversation_append st l1 l2 r :
  ~ In r l2 ->
  fst (analyze_conversation st (l1 ++ l2)) r = fst (analyze_conversation st l1) r.
Proof.
  intros H. unfold analyze_conversation. cbn [fst].
  rewrite annotate_app. apply annotate_notin, H.
Qed.

Lemma analyze_conversation_append_witness :
  ~ In 0%nat [1%nat] /\
  fst (analyze_conversation (store_of [new_turn "human" "hi"; new_turn "ai" "I feel glad"])
         ([0%nat] ++ [1%nat])) 0%nat =
  fst (analyze_conversation (store_of [new_turn "human" "hi"; new_turn "ai" "I feel glad"])
         [0%nat]) 0%nat.
Proof.
  assert (H : ~ In 0%nat [1%nat]) by (simpl; lia).
  split; [exact H | apply analyze_conversation_append; exact H].
Defined.

Lemma map_store_of ts : map (store_of ts) (refs_of ts) = ts.
Proof.
  unfold store_of, refs_of. generalize (new_turn EmptyString EmptyString) as d. intro d.
  induction ts as [|x ts IH]; [reflexivity|].
  cbn [length]. rewrite <- cons_seq, <- seq_shift, map_cons, map_map. cbn [nth]. f_equal. exact IH.
Qed.

Lemma length_filter_map_ext (f : Turn -> bool) (s1 s2 : store) L :
  (forall r, f (s1 r) = f (s2 r)) ->
  length (filter f (map s1 L)) = length (filter f (map s2 L)).
Proof.
  intros H. induction L as [|x L IH]; [reflexivity|]. cbn [map filter].
  rewrite H. destruct (f (s2 x)); cbn [length]; rewrite IH; reflexivity.
Qed.

Lemma label_lines_speakers input :
  Forall (fun p => fst p = "human" \/ fst p = "ai") (label_lines input).
Proof.
  unfold label_lines. induction (py_split_nl input) as [|l ls IH]; [constructor|].
  cbn [flat_map]. apply Forall_app. split; [|exact IH].
  unfold label_line. destruct (label_rest human_labels (py_strip l)).
  - constructor; [left; reflexivity | constructor].
  - destruct (label_rest ai_labels (py_strip l)); [constructor; [right; reflexivity | constructor] | constructor].
Qed.

Lemma length_filter_labels (g : Turn -> bool) (h : string * string -> bool) ts ls :
  (forall t p, turn_of_label t p -> g t = h p) ->
  Forall2 turn_of_label ts ls -> length (filter g ts) = length (filter h ls).
Proof.
  intros Hg H. induction H as [|t p ts ls Ht _ IH]; [reflexivity|]. cbn [filter].
  rewrite (Hg t p Ht). destruct (h p); cbn [length]; rewrite IH; reflexivity.
Qed.

Lemma length_filter_human_ai (ls : list (string * string)) :
  Forall (fun p => fst p = "human" \/ fst p = "ai") ls ->
  (length (filter (fun p => String.eqb (fst p) "human") ls) +
   length (filter (fun p => String.eqb (fst p) "ai") ls) = length ls)%nat.
Proof.
  intros H. induction H as [|p ls Hp _ IH]; [reflexivity|]. cbn [filter length].
  destruct Hp as [E|E]; rewrite E; cbn [String.eqb Ascii.eqb Bool.eqb andb]; cbn [length]; lia.
Qed.

(** The counts of [analyze_conversation(parse_conversation(text))]: one
    turn per label line, [human_turns] and [ai_turns] the numbers of human
    and ai label lines, and every turn is counted on exactly one side. *)
Theorem analyze_text_counts input :
  turn_count (snd (analyze_text input)) = Z.of_nat (length (label_lines input)) /\
  human_turns (snd (analyze_text input)) =
    Z.of_nat (length (filter (fun p => String.eqb (fst p) "human") (label_lines input))) /\
  ai_turns (snd (analyze_text input)) =
    Z.of_nat (length (filter (fun p => String.eqb (fst p) "ai") (label_lines input))) /\
  human_turns (snd (analyze_text input)) + ai_turns (snd (analyze_text input)) =
    turn_count (snd (analyze_text input)).
Proof.
  pose proof (parse_conversation_labels input) as HF.
  assert (Hsp : forall g : string -> bool, forall r,
            g (speaker (annotate (store_of (parse_conversation input)) None
                                 (refs_of (parse_conversation input)) r)) =
            g (speaker (store_of (parse_conversation input) r))).
  { intros g r. rewrite (proj1 (annotate_speaker_text _ _ _ r)). reflexivity. }
  assert (Hh : length (filter is_human (map (annotate (store_of (parse_conversation input)) None
                  (refs_of (parse_conversation input))) (refs_of (parse_conversation input)))) =
               length (filter (fun p => String.eqb (fst p) "human") (label_lines input))).
  { rewrite (length_filter_map_ext _ _ (store_of (parse_conversation input)) _
               (Hsp (fun s => String.eqb s "human"))), map_store_of.
    apply length_filter_labels; [|exact HF]. intros t p [E _]. unfold is_human. rewrite E. reflexivity. }
  assert (Ha : length (filter is_ai (map (annotate (store_of (parse_conversation input)) None
                  (refs_of (parse_conversation input))) (refs_of (parse_conversation input)))) =
               length (filter (fun p => String.eqb (fst p) "ai") (label_lines input))).
  { rewrite (length_filter_map_ext _ _ (store_of (parse_conversation input)) _
               (Hsp (fun s => String.eqb s "ai"))), map_store_of.
    apply length_filter_labels; [|exact HF]. intros t p [E _]. unfold is_ai. rewrite E. reflexivity. }
  pose proof (length_filter_human_ai _ (label_lines_speakers input)) as Hs.
  unfold analyze_text, analyze_conversation, aggregate. cbn [snd turn_count human_turns ai_turns].
  rewrite Hh, Ha, length_map. unfold refs_of. rewrite length_seq, (Forall2_length HF).
  repeat split; [reflexivity..|]. lia.
Qed.

(** A human-marker score lies in [0, 100]; it is 100 exactly when there
    are human turns and all of them carry the marker, and it is 0 exactly
    when [100 * count] is below the number of human turns (at least 1), so a
    single marked turn among more than 100 human turns still scores 0. *)
Theorem dimension_score_range cnt n :
  (cnt <= n)%nat -> 100 * Z.of_nat n < 2 ^ 53 ->
  0 <= dimension_score cnt n <= 100 /\
  (dimension_score cnt n = 100 <-> (0 < n)%nat /\ cnt = n) /\
  (dimension_score cnt n = 0 <-> 100 * Z.of_nat cnt < Z.max (Z.of_nat n) 1).
Proof.
  intros Hc Hn. rewrite (dimension_score_floor cnt n Hc Hn).
  set (N := Z.max (Z.of_nat n) 1).
  assert (HN : 0 < N) by (unfold N; lia).
  pose proof (Z.mul_div_le (100 * Z.of_nat cnt) N HN) as H1.
  pose proof (Z.mul_succ_div_gt (100 * Z.of_nat cnt) N HN) as H2.
  set (q := 100 * Z.of_nat cnt / N) in *.
  assert (HNn : (0 < n)%nat -> N = Z.of_nat n) by (intro; unfold N; lia).
  assert (HN0 : n = 0%nat -> N = 1) by (intro E; unfold N; rewrite E; reflexivity).
  split; [|split].
  - split; [nia|]. destruct (Nat.eq_dec n 0) as [E|E]; [rewrite HN0 in * by exact E; lia|].
    rewrite HNn in * by lia. nia.
  - split.
    + intros Hq. destruct (Nat.eq_dec n 0) as [E|E]; [rewrite HN0 in * by exact E; lia|].
      rewrite HNn in * by lia. split; [lia|]. nia.
    + intros [Hp ->]. rewrite HNn in * by exact Hp. nia.
  - split; intros H; nia.
Qed.

Lemma dimension_score_range_witness :
  (1 <= 101)%nat /\ 100 * Z.of_nat 101 < 2 ^ 53 /\ dimension_score 1 101 = 0.
Proof.
  assert (H1 : (1 <= 101)%nat) by lia.
  assert (H2 : 100 * Z.of_nat 101 < 2 ^ 53) by (vm_compute; reflexivity).
  split; [exact H1 | split; [exact H2|]].
  apply (proj2 (proj2 (proj2 (dimension_score_range 1 101 H1 H2)))). vm_compute. reflexivity.
Defined.

(** ** More of [format_report] and [main] *)

Lemma nat_of_digit n : nat_of_ascii (ascii_of_nat (48 + n mod 10)) = (48 + n mod 10)%nat.
Proof.
  apply nat_ascii_embedding. pose proof (Nat.mod_upper_bound n 10). lia.
Qed.

Lemma is_digit_digit n : is_digit (ascii_of_nat (48 + n mod 10)) = true.
Proof.
  unfold is_digit. rewrite nat_of_digit. pose proof (Nat.mod_upper_bound n 10).
  apply andb_true_iff. split; apply Nat.leb_le; lia.
Qed.

Lemma digits_of_dec f : forall n acc v, (n < f)%nat ->
  exists k, dec_from v (digits_of f n acc) = dec_from (v * 10 ^ k + n)%nat acc.
Proof.
  induction f as [|f IH]; intros n acc v Hn; [lia|]. cbn [digits_of].
  destruct (Nat.ltb_spec n 10) as [E|E].
  - exists 1%nat. cbn [dec_from]. rewrite is_digit_digit, nat_of_digit, Nat.mod_small by exact E.
    f_equal. simpl. lia.
  - assert (Hlt : (n / 10 < f)%nat) by (pose proof (Nat.div_lt n 10); lia).
    destruct (IH (n / 10)%nat (String (ascii_of_nat (48 + n mod 10)) acc) v Hlt) as [k Hk].
    exists (S k). rewrite Hk. cbn [dec_from]. rewrite is_digit_digit, nat_of_digit.
    f_equal. rewrite Nat.pow_succ_r'. pose proof (Nat.div_mod_eq n 10). nia.
Qed.

Lemma digits_of_head f : forall n acc, (n < f)%nat ->
  exists c r, digits_of f n acc = String c r /\ is_digit c = true /\
              ((1 <= n)%nat -> c <> "0"%char).
Proof.
  induction f as [|f IH]; intros n acc Hn; [lia|]. cbn [digits_of].
  destruct (Nat.ltb_spec n 10) as [E|E].
  - exists (ascii_of_nat (48 + n mod 10)), acc. split; [reflexivity|]. split; [apply is_digit_digit|].
    intros H1 Hc. apply (f_equal nat_of_ascii) in Hc. rewrite nat_of_digit, Nat.mod_small in Hc by exact E.
    change (nat_of_ascii "0"%char) with 48%nat in Hc. lia.
  - destruct (IH (n / 10)%nat (String (ascii_of_nat (48 + n mod 10)) acc)) as [c [r [H1 [H2 H3]]]].
    + pose proof (Nat.div_lt n 10). lia.
    + exists c, r. split; [exact H1|]. split; [exact H2|]. intros _. apply H3.
      apply Nat.div_le_lower_bound; lia.
Qed.

Lemma decimal_value_str_of_nat n : decimal_value (str_of_nat n) = Some n.
Proof.
  unfold str_of_nat.
  destruct (digits_of_head (S n) n EmptyString (Nat.lt_succ_diag_r n)) as [c [r [Hcr _]]].
  destruct (digits_of_dec (S n) n EmptyString 0 (Nat.lt_succ_diag_r n)) as [k Hk].
  unfold decimal_value. rewrite Hcr. rewrite <- Hcr, Hk. reflexivity.
Qed.

(** The numbers of the report are written in canonical decimal: reading
    [str(z)] back with [int] gives [z], and no numeral starts with a 0
    digit unless it is 0 itself. *)
Theorem str_of_Z_int z :
  int_of_str (str_of_Z z) = Some z /\
  (forall r, str_of_Z z = String "0"%char r -> z = 0) /\
  (forall r, str_of_Z z <> String "-"%char (String "0"%char r)).
Proof.
  unfold str_of_Z. set (m := Z.to_nat (if z <? 0 then - z else z)).
  destruct (digits_of_head (S m) m EmptyString (Nat.lt_succ_diag_r m)) as [c [r [Hcr [Hd Hz]]]].
  fold (str_of_nat m) in Hcr.
  destruct (Z.ltb_spec z 0) as [E|E]; unfold m in *; clear m.
  - split; [|split].
    + change ("-" ++ str_of_nat (Z.to_nat (- z)))
        with (String "-"%char (str_of_nat (Z.to_nat (- z)))).
      unfold int_of_str. cbv beta iota. rewrite Ascii.eqb_refl, decimal_value_str_of_nat.
      cbn [option_map]. f_equal. lia.
    + intros r' H. discriminate H.
    + intros r' H. injection H as H. rewrite Hcr in H. injection H as Hc _.
      apply Hz in Hc; [contradiction|lia].
  - split; [|split].
    + rewrite Hcr. cbn [int_of_str].
      destruct (Ascii.eqb_spec c "-"%char) as [->|_]; [discriminate Hd|].
      rewrite <- Hcr, decimal_value_str_of_nat. cbn [option_map]. f_equal. lia.
    + intros r' H. rewrite Hcr in H. injection H as Hc _.
      destruct (Z.eq_dec z 0) as [|Hn]; [assumption|]. exfalso. apply Hz in Hc; [exact Hc|lia].
    + intros r' H. rewrite Hcr in H. injection H as Hc _. subst c. discriminate Hd.
Qed.

Lemma str_of_Z_int_witness :
  int_of_str (str_of_Z (-105)) = Some (-105) /\ str_of_Z (-105) = "-105".
Proof.
  split; [exact (proj1 (str_of_Z_int (-105))) | vm_compute; reflexivity].
Defined.

Lemma parse_conversation_blank text :
  py_strip text = EmptyString -> parse_conversation text = [].
Proof. intros H. unfold parse_conversation. rewrite H. reflexivity. Qed.

(** [main] run with a file argument (any argument but [--demo]; further
    arguments are ignored) prints the report of the file's text, even a
    blank one (the all-zero report); run without arguments it prints the
    usage lines and then the same report for the text read from standard
    input, or nothing more when that text is blank. *)
Theorem main_file_and_stdin prog path rest text read_file :
  path <> "--demo" -> read_file path = Some text ->
  main (prog :: path :: rest) read_file text = Some (print (report_of text)) /\
  (py_strip text <> EmptyString ->
   main [prog] read_file text = Some (usage ++ print (report_of text))) /\
  (py_strip text = EmptyString ->
   main [prog] read_file text = Some usage /\
   report_of text = format_report empty_analysis).
Proof.
  intros Hp Hr. split; [|split].
  - cbn [main]. destruct (String.eqb_spec path "--demo") as [E|_]; [contradiction|].
    rewrite Hr. reflexivity.
  - intros Hb. cbn [main]. destruct (String.eqb_spec (py_strip text) EmptyString) as [E|_];
      [contradiction|reflexivity].
  - intros Hb. cbn [main]. rewrite Hb. cbn [String.eqb]. rewrite sapp_nil_r. split; [reflexivity|].
    unfold report_of, analyze_text. rewrite (parse_conversation_blank text Hb).
    vm_compute. reflexivity.
Qed.

Lemma main_file_and_stdin_witness :
  "chat.txt" <> "--demo" /\
  main ["analyzer.py"] (fun p => if String.eqb p "chat.txt" then Some "  " else None) "  " =
    Some usage /\
  main ["analyzer.py"; "chat.txt"] (fun p => if String.eqb p "chat.txt" then Some "  " else None) "  " =
    Some (print (format_report empty_analysis)).
Proof.
  assert (H1 : "chat.txt" <> "--demo") by discriminate.
  assert (H2 : (fun p => if String.eqb p "chat.txt" then Some "  " else None) "chat.txt" = Some "  ")
    by reflexivity.
  assert (H3 : py_strip "  " = EmptyString) by reflexivity.
  pose proof (main_file_and_stdin "analyzer.py" "chat.txt" [] "  " _ H1 H2) as [Hf [_ Hs]].
  destruct (Hs H3) as [Hu Hz].
  split; [exact H1 | split; [exact Hu|]]. rewrite Hf, Hz. reflexivity.
Defined.

(** ** More of the lists of [analyze_conversation] *)

Lemma missed_from_In i ts msg :
  In msg (missed_from i ts) <->
  exists j t nt, nth_error ts j = Some t /\ nth_error ts (S j) = Some nt /\
    is_ai t && emotion_expressed t = true /\
    is_human nt && negb (acknowledgment_given nt) = true /\
    msg = "Turn " ++ str_of_nat (S (S (i + j)))
          ++ ": AI expressed emotion but human didn't acknowledge".
Proof.
  revert i. induction ts as [|t rest IH]; intros i.
  - split; [intros []|]. intros [j [t [nt [H _]]]]. destruct j; discriminate H.
  - cbn [missed_from]. rewrite in_app_iff, IH. split.
    + intros [H|[j [t' [nt [H1 [H2 [H3 [H4 H5]]]]]]]].
      * destruct (is_ai t && emotion_expressed t) eqn:E1; [|destruct H].
        destruct rest as [|nt rest']; [destruct H|].
        destruct (is_human nt && negb (acknowledgment_given nt)) eqn:E2; [|destruct H].
        destruct H as [H|[]]. exists 0%nat, t, nt.
        repeat split; [exact E1 | exact E2 | rewrite Nat.add_0_r; symmetry; exact H].
      * exists (S j), t', nt. repeat split; [exact H1 | exact H2 | exact H3 | exact H4|].
        rewrite H5, Nat.add_succ_r. reflexivity.
    + intros [j [t' [nt [H1 [H2 [H3 [H4 H5]]]]]]]. destruct j as [|j].
      * left. injection H1 as <-. rewrite H3.
        destruct rest as [|nt' rest']; [discriminate H2|]. injection H2 as <-. rewrite H4.
        left. rewrite H5, Nat.add_0_r. reflexivity.
      * right. exists j, t', nt. repeat split; [exact H1 | exact H2 | exact H3 | exact H4|].
        rewrite H5, Nat.add_succ_r. reflexivity.
Qed.

Lemma sapp_cancel_l a b c : a ++ b = a ++ c -> b = c.
Proof. induction a as [|x a IH]; intros H; [exact H|]. injection H as H. exact (IH H). Qed.

Lemma sapp_cancel_r a b c : a ++ c = b ++ c -> a = b.
Proof.
  intros H. apply (f_equal list_ascii_of_string) in H.
  rewrite !list_ascii_of_string_sapp in H. apply app_inv_tail in H.
  rewrite <- (string_of_list_ascii_of_string a), <- (string_of_list_ascii_of_string b), H.
  reflexivity.
Qed.

Lemma str_of_nat_inj a b : str_of_nat a = str_of_nat b -> a = b.
Proof.
  intros H. pose proof (decimal_value_str_of_nat a) as Ha.
  rewrite H, decimal_value_str_of_nat in Ha. injection Ha as Ha. symmetry. exact Ha.
Qed.

(** The annotation of two consecutive Turn objects of a list without
    repeated objects. *)
Lemma annotate_pair st L j r1 r2 :
  NoDup L -> nth_error L j = Some r1 -> nth_error L (S j) = Some r2 ->
  exists P,
    annotate st None L r1 = analyze_turn (st r1) P /\
    annotate st None L r2 = analyze_turn (st r2) (Some (analyze_turn (st r1) P)).
Proof.
  intros Hnd H1 H2.
  destruct (nth_error_split L j H1) as [l1 [l' [E Hl]]].
  subst L. rewrite nth_error_app2 in H2 by lia.
  replace (S j - length l1)%nat with 1%nat in H2 by lia.
  destruct l' as [|r2' l2]; [discriminate H2|]. injection H2 as ->.
  apply NoDup_remove in Hnd as [Hnd Hr1]. apply NoDup_remove in Hnd as [_ Hr2].
  assert (Hr12 : r1 <> r2) by (intro E; apply Hr1; rewrite E; apply in_or_app; right; left; reflexivity).
  exists (option_map (annotate st None l1) (last_ref None l1)).
  rewrite !annotate_app. cbn [annotate].
  set (s1 := annotate st None l1).
  assert (S1 : s1 r1 = st r1)
    by (apply annotate_notin; intro H; apply Hr1, in_or_app; left; exact H).
  assert (S2 : s1 r2 = st r2)
    by (apply annotate_notin; intro H; apply Hr2, in_or_app; left; exact H).
  rewrite S1. set (A := analyze_turn (st r1) (option_map s1 (last_ref None l1))).
  assert (U2 : upd s1 r1 A r2 = st r2)
    by (unfold upd; destruct (Nat.eqb_spec r2 r1); [congruence | exact S2]).
  assert (U1 : upd s1 r1 A r1 = A) by (unfold upd; rewrite Nat.eqb_refl; reflexivity).
  cbn [option_map]. rewrite U1, U2.
  split.
  - rewrite annotate_notin by (intro H; apply Hr1, in_or_app; right; right; exact H).
    unfold upd at 1. destruct (Nat.eqb_spec r1 r2) as [E|_]; [congruence|]. exact U1.
  - rewrite annotate_notin by (intro H; apply Hr2, in_or_app; right; exact H).
    unfold upd at 1. rewrite Nat.eqb_refl. reflexivity.
Qed.

Lemma emotion_analyze_turn_ai t p :
  speaker t <> "human" ->
  emotion_expressed (analyze_turn t p) = any_match emotion_patterns (py_lower (text t)).
Proof.
  intros H. unfold analyze_turn. destruct (String.eqb_spec (speaker t) "human"); [contradiction|].
  reflexivity.
Qed.

Lemma ack_analyze_turn_after_ai t q :
  speaker t = "human" -> speaker q = "ai" ->
  acknowledgment_given (analyze_turn t (Some q)) = any_match ack_patterns (py_lower (text t)).
Proof.
  intros H1 H2. unfold analyze_turn. rewrite H1, H2. reflexivity.
Qed.

(** Before the list is cut to its first three entries, the
    missed-opportunity message for turn [j + 2] is there exactly when turn
    [j + 1] is an ai turn whose text (lower-cased) matches an emotion
    pattern and turn [j + 2] is a human turn whose text matches no
    acknowledgment pattern. *)
Theorem missed_opportunity_iff st L j r1 r2 :
  NoDup L -> nth_error L j = Some r1 -> nth_error L (S j) = Some r2 ->
  (In ("Turn " ++ str_of_nat (S (S j))
       ++ ": AI expressed emotion but human didn't acknowledge")
      (missed_from 0 (map (fst (analyze_conversation st L)) L)) <->
   speaker (st r1) = "ai" /\ speaker (st r2) = "human" /\
   any_match emotion_patterns (py_lower (text (st r1))) = true /\
   any_match ack_patterns (py_lower (text (st r2))) = false).
Proof.
  intros Hnd H1 H2. unfold analyze_conversation. cbn [fst].
  destruct (annotate_pair st L j r1 r2 Hnd H1 H2) as [P [E1 E2]].
  assert (M1 : nth_error (map (annotate st None L) L) j = Some (analyze_turn (st r1) P))
    by (rewrite nth_error_map, H1; cbn; rewrite E1; reflexivity).
  assert (M2 : nth_error (map (annotate st None L) L) (S j) =
               Some (analyze_turn (st r2) (Some (analyze_turn (st r1) P))))
    by (rewrite nth_error_map, H2; cbn; rewrite E2; reflexivity).
  assert (Key : is_ai (analyze_turn (st r1) P) && emotion_expressed (analyze_turn (st r1) P) = true /\
                is_human (analyze_turn (st r2) (Some (analyze_turn (st r1) P)))
                && negb (acknowledgment_given (analyze_turn (st r2) (Some (analyze_turn (st r1) P))))
                = true <->
                speaker (st r1) = "ai" /\ speaker (st r2) = "human" /\
                any_match emotion_patterns (py_lower (text (st r1))) = true /\
                any_match ack_patterns (py_lower (text (st r2))) = false).
  { unfold is_ai, is_human. rewrite !speaker_analyze_turn.
    destruct (String.eqb_spec (speaker (st r1)) "ai") as [A|A];
      [|split; [intros [H _]; discriminate H | intros [H _]; contradiction]].
    destruct (String.eqb_spec (speaker (st r2)) "human") as [B|B];
      [|split; [intros [_ H]; rewrite andb_false_l in H; discriminate H
               | intros [_ [H _]]; contradiction]].
    rewrite emotion_analyze_turn_ai by (rewrite A; discriminate).
    rewrite ack_analyze_turn_after_ai by (rewrite ?speaker_analyze_turn; assumption).
    cbn [andb].
    destruct (any_match emotion_patterns (py_lower (text (st r1))));
      destruct (any_match ack_patterns (py_lower (text (st r2)))); cbn;
      intuition (first [discriminate | reflexivity | assumption]). }
  rewrite <- Key, missed_from_In. split.
  - intros [j' [t [nt [T1 [T2 [T3 [T4 T5]]]]]]].
    apply sapp_cancel_l, sapp_cancel_r, str_of_nat_inj in T5.
    simpl in T5. injection T5 as <-.
    rewrite M1 in T1. rewrite M2 in T2. injection T1 as <-. injection T2 as <-.
    split; assumption.
  - intros [T3 T4]. exists j, (analyze_turn (st r1) P),
      (analyze_turn (st r2) (Some (analyze_turn (st r1) P))).
    repeat split; assumption.
Qed.

(** ** Letter case *)

Lemma py_lower_char_idem c : py_lower_char (py_lower_char c) = py_lower_char c.
Proof. destruct c as [[] [] [] [] [] [] [] []]; vm_compute; reflexivity. Qed.

Lemma py_isspace_lower c : py_isspace (py_lower_char c) = py_isspace c.
Proof. destruct c as [[] [] [] [] [] [] [] []]; vm_compute; reflexivity. Qed.

Lemma eqb_lower_colon c : Ascii.eqb (py_lower_char c) ":"%char = Ascii.eqb c ":"%char.
Proof. destruct c as [[] [] [] [] [] [] [] []]; vm_compute; reflexivity. Qed.



Lemma lstrip_lower s : lstrip (py_lower s) = py_lower (lstrip s).
Proof.
  induction s as [|c s IH]; [reflexivity|]. cbn [py_lower lstrip].
  rewrite py_isspace_lower. destruct (py_isspace c); [exact IH | reflexivity].
Qed.

Lemma py_lower_empty s : py_lower s = EmptyString -> s = EmptyString.
Proof. destruct s; [reflexivity | discriminate]. Qed.

Lemma rstrip_lower s : rstrip (py_lower s) = py_lower (rstrip s).
Proof.
  induction s as [|c s IH]; [reflexivity|]. cbn [py_lower rstrip]. rewrite IH.
  destruct (rstrip s) as [|c' r] eqn:E; cbn [py_lower].
  - rewrite py_isspace_lower. destruct (py_isspace c); reflexivity.
  - reflexivity.
Qed.

Lemma py_strip_lower s : py_strip (py_lower s) = py_lower (py_strip s).
Proof. unfold py_strip. rewrite lstrip_lower, rstrip_lower. reflexivity. Qed.


Lemma strip_word_colon_lower w s :
  strip_word_colon w (py_lower s) = option_map py_lower (strip_word_colon w s).
Proof.
  revert s. induction w as [|a w IH]; intros [|c s]; try reflexivity; cbn [py_lower strip_word_colon].
  - rewrite eqb_lower_colon. destruct (Ascii.eqb c ":"%char); reflexivity.
  - rewrite py_lower_char_idem. destruct (Ascii.eqb (py_lower_char c) a); [apply IH | reflexivity].
Qed.

Lemma label_rest_lower labels line :
  label_rest labels (py_lower line) = option_map py_lower (label_rest labels line).
Proof.
  induction labels as [|w ws IH]; [reflexivity|]. cbn [label_rest].
  rewrite strip_word_colon_lower. destruct (strip_word_colon w line); cbn [option_map].
  - rewrite lstrip_lower. reflexivity.
  - exact IH.
Qed.

Lemma label_line_lower l :
  label_line (py_lower l) = option_map (fun p => (fst p, py_lower (snd p))) (label_line l).
Proof.
  unfold label_line. rewrite py_strip_lower, !label_rest_lower.
  destruct (label_rest human_labels (py_strip l)); [reflexivity|].
  destruct (label_rest ai_labels (py_strip l)); reflexivity.
Qed.















Lemma missed_opportunity_iff_witness :
  NoDup [0%nat; 1%nat] /\
  In ("Turn " ++ str_of_nat 2 ++ ": AI expressed emotion but human didn't acknowledge")
     (missed_from 0 (map (fst (analyze_conversation
        (store_of [new_turn "ai" "I feel happy today"; new_turn "human" "ok, next question"])
        [0%nat; 1%nat])) [0%nat; 1%nat])).
Proof.
  assert (H : NoDup [0%nat; 1%nat]) by apply (seq_NoDup 2 0).
  split; [exact H|].
  apply (proj2 (missed_opportunity_iff
    (store_of [new_turn "ai" "I feel happy today"; new_turn "human" "ok, next question"])
    [0%nat; 1%nat] 0%nat 0%nat 1%nat H eq_refl eq_refl)).
  vm_compute. repeat split; reflexivity.
Defined.

(** ** Number fields of the report and highlight messages *)

Lemma digits_of_length f : forall n acc k, (n < f)%nat -> (10 ^ k <= n)%nat ->
  (k + S (String.length acc) <= String.length (digits_of f n acc))%nat.
Proof.
  induction f as [|f IH]; intros n acc k Hn Hk; [lia|]. cbn [digits_of].
  destruct (Nat.ltb_spec n 10) as [E|E].
  - destruct k as [|k]; [cbn; lia|].
    rewrite Nat.pow_succ_r' in Hk. pose proof (Nat.pow_nonzero 10 k). lia.
  - assert (Hlt : (n / 10 < f)%nat) by (pose proof (Nat.div_lt n 10); lia).
    destruct k as [|k].
    + pose proof (IH (n / 10)%nat (String (ascii_of_nat (48 + n mod 10)) acc) 0%nat Hlt) as H.
      cbn [String.length] in H.
      assert (H1 : (10 ^ 0 <= n / 10)%nat)
        by (rewrite Nat.pow_0_r; apply Nat.div_le_lower_bound; lia).
      specialize (H H1). lia.
    + assert (Hk' : (10 ^ k <= n / 10)%nat).
      { apply Nat.div_le_lower_bound; [lia|]. rewrite Nat.pow_succ_r' in Hk. lia. }
      pose proof (IH (n / 10)%nat (String (ascii_of_nat (48 + n mod 10)) acc) k Hlt Hk') as H.
      cbn [String.length] in H. lia.
Qed.

Lemma fmt3d_small_check :
  forallb (fun n => Nat.eqb (String.length (fmt3d (Z.of_nat n))) 3) (List.seq 0 1000) = true.
Proof. vm_compute. reflexivity. Qed.

(** The [:3d] fields of the report: a number from 0 to 999 takes exactly
    three characters (padded with spaces on the left), and a number of
    1000 or more is written in full, so the field then grows past three
    characters. *)
Theorem fmt3d_width z :
  (0 <= z <= 999 -> String.length (fmt3d z) = 3%nat) /\
  (1000 <= z -> fmt3d z = str_of_Z z /\ (4 <= String.length (fmt3d z))%nat).
Proof.
  split.
  - intros Hz. pose proof fmt3d_small_check as H. rewrite forallb_forall in H.
    specialize (H (Z.to_nat z)). rewrite Z2Nat.id in H by lia.
    apply Nat.eqb_eq, H, in_seq. lia.
  - intros Hz.
    assert (Hl : (4 <= String.length (str_of_Z z))%nat).
    { unfold str_of_Z. destruct (Z.ltb_spec z 0) as [E|_]; [lia|].
      unfold str_of_nat.
      pose proof (digits_of_length (S (Z.to_nat z)) (Z.to_nat z) EmptyString 3
                    (Nat.lt_succ_diag_r _)) as H.
      cbn [String.length] in H. apply H. change (10 ^ 3)%nat with 1000%nat. lia. }
    assert (E : fmt3d z = str_of_Z z).
    { unfold fmt3d. replace (3 - String.length (str_of_Z z))%nat with 0%nat by lia. reflexivity. }
    rewrite E. split; [reflexivity | exact Hl].
Qed.

Lemma fmt3d_width_witness :
  (0 <= 7 <= 999 /\ String.length (fmt3d 7) = 3%nat) /\
  (1000 <= 1234 /\ fmt3d 1234 = str_of_Z 1234).
Proof.
  assert (H1 : 0 <= 7 <= 999) by lia. assert (H2 : 1000 <= 1234) by lia.
  split; split; [exact H1 | exact (proj1 (fmt3d_width 7) H1) |
                 exact H2 | exact (proj1 (proj2 (fmt3d_width 1234) H2))].
Defined.

Lemma digits_of_digits f : forall n acc,
  forallb is_digit (list_ascii_of_string acc) = true ->
  forallb is_digit (list_ascii_of_string (digits_of f n acc)) = true.
Proof.
  induction f as [|f IH]; intros n acc H; [exact H|]. cbn [digits_of].
  assert (H' : forallb is_digit (list_ascii_of_string (String (ascii_of_nat (48 + n mod 10)) acc)) = true)
    by (cbn [list_ascii_of_string forallb]; rewrite is_digit_digit, H; reflexivity).
  destruct (n <? 10)%nat; [exact H' | apply IH, H'].
Qed.

Lemma str_of_nat_digits n : forallb is_digit (list_ascii_of_string (str_of_nat n)) = true.
Proof. apply digits_of_digits. reflexivity. Qed.

(** A numeral followed by a colon is read back unambiguously. *)
Lemma digits_colon_split x y m1 m2 :
  forallb is_digit (list_ascii_of_string x) = true ->
  forallb is_digit (list_ascii_of_string y) = true ->
  x ++ String ":"%char m1 = y ++ String ":"%char m2 -> x = y /\ m1 = m2.
Proof.
  revert y. induction x as [|c x IH]; intros [|d y] Hx Hy H; cbn in H.
  - injection H as H. split; [reflexivity | exact H].
  - injection H as <- _. discriminate Hy.
  - injection H as -> _. discriminate Hx.
  - injection H as <- H. cbn [list_ascii_of_string forallb] in Hx, Hy.
    apply andb_true_iff in Hx as [_ Hx]. apply andb_true_iff in Hy as [_ Hy].
    destruct (IH y Hx Hy H) as [-> ->]. split; reflexivity.
Qed.

Lemma highlights_from_In i ts msg :
  In msg (highlights_from i ts) <->
  exists j t, nth_error ts j = Some t /\ is_human t = true /\
    ((curiosity_shown t = true /\
      msg = "Turn " ++ str_of_nat (S (i + j)) ++ ": Human showed genuine curiosity about AI's experience") \/
     (acknowledgment_given t = true /\
      msg = "Turn " ++ str_of_nat (S (i + j)) ++ ": Human acknowledged what AI shared") \/
     (space_given t = true /\
      msg = "Turn " ++ str_of_nat (S (i + j)) ++ ": Human gave AI space to express freely")).
Proof.
  revert i. induction ts as [|t rest IH]; intros i.
  - split; [intros []|]. intros [j [t [H _]]]. destruct j; discriminate H.
  - cbn [highlights_from]. rewrite !in_app_iff, IH. split.
    + intros [H|[H|[H|[j [t' [H1 [H2 H3]]]]]]].
      * destruct (is_human t && curiosity_shown t) eqn:E; [|destruct H].
        apply andb_true_iff in E as [E1 E2]. destruct H as [H|[]].
        exists 0%nat, t. rewrite Nat.add_0_r. repeat split; [exact E1|]. left. split; [exact E2|].
        symmetry. exact H.
      * destruct (is_human t && acknowledgment_given t) eqn:E; [|destruct H].
        apply andb_true_iff in E as [E1 E2]. destruct H as [H|[]].
        exists 0%nat, t. rewrite Nat.add_0_r. repeat split; [exact E1|]. right. left.
        split; [exact E2|]. symmetry. exact H.
      * destruct (is_human t && space_given t) eqn:E; [|destruct H].
        apply andb_true_iff in E as [E1 E2]. destruct H as [H|[]].
        exists 0%nat, t. rewrite Nat.add_0_r. repeat split; [exact E1|]. right. right.
        split; [exact E2|]. symmetry. exact H.
      * exists (S j), t'. rewrite Nat.add_succ_r. split; [exact H1|]. split; [exact H2|]. exact H3.
    + intros [j [t' [H1 [H2 H3]]]]. destruct j as [|j].
      * injection H1 as <-. rewrite Nat.add_0_r in H3. rewrite H2.
        destruct H3 as [[E ->]|[[E ->]|[E ->]]]; rewrite E; cbn [andb];
          [left | right; left | right; right; left]; left; reflexivity.
      * right. right. right. exists j, t'. rewrite Nat.add_succ_r in H3.
        split; [exact H1|]. split; [exact H2|]. exact H3.
Qed.

Lemma annotate_at st L j r :
  NoDup L -> nth_error L j = Some r ->
  exists P, annotate st None L r = analyze_turn (st r) P.
Proof.
  intros Hnd H1. destruct (nth_error_split L j H1) as [l1 [l2 [E _]]]. subst L.
  apply NoDup_remove in Hnd as [_ Hr].
  exists (option_map (annotate st None l1) (last_ref None l1)).
  rewrite annotate_app. cbn [annotate].
  rewrite annotate_notin by (intro H; apply Hr, in_or_app; right; exact H).
  unfold upd. rewrite Nat.eqb_refl.
  rewrite annotate_notin by (intro H; apply Hr, in_or_app; left; exact H). reflexivity.
Qed.

(** Before the list is cut to its first five entries, the highlight
    messages for curiosity and for space at turn [j + 1] are there exactly
    when that turn is a human turn whose lower-cased text matches a
    curiosity (respectively space) pattern; the previous turn plays no
    part. *)
Theorem highlight_curiosity_space_iff st L j r :
  NoDup L -> nth_error L j = Some r ->
  (In ("Turn " ++ str_of_nat (S j) ++ ": Human showed genuine curiosity about AI's experience")
      (highlights_from 0 (map (fst (analyze_conversation st L)) L)) <->
   speaker (st r) = "human" /\ any_match curiosity_patterns (py_lower (text (st r))) = true) /\
  (In ("Turn " ++ str_of_nat (S j) ++ ": Human gave AI space to express freely")
      (highlights_from 0 (map (fst (analyze_conversation st L)) L)) <->
   speaker (st r) = "human" /\ any_match space_patterns (py_lower (text (st r))) = true).
Proof.
  intros Hnd H1. unfold analyze_conversation. cbn [fst].
  destruct (annotate_at st L j r Hnd H1) as [P E1].
  assert (M1 : nth_error (map (annotate st None L) L) j = Some (analyze_turn (st r) P))
    by (rewrite nth_error_map, H1; cbn; rewrite E1; reflexivity).
  assert (Hh : is_human (analyze_turn (st r) P) = true <-> speaker (st r) = "human").
  { unfold is_human. rewrite speaker_analyze_turn. apply String.eqb_eq. }
  assert (Hc : speaker (st r) = "human" ->
               curiosity_shown (analyze_turn (st r) P) = any_match curiosity_patterns (py_lower (text (st r))) /\
               space_given (analyze_turn (st r) P) = any_match space_patterns (py_lower (text (st r)))).
  { intros Hs. unfold analyze_turn. rewrite Hs. split; reflexivity. }
  assert (Num : forall k m1 m2, "Turn " ++ str_of_nat (S j) ++ String ":"%char m1 =
                                "Turn " ++ str_of_nat (S (0 + k)) ++ String ":"%char m2 ->
                                k = j /\ m1 = m2).
  { intros k m1 m2 H. apply sapp_cancel_l, digits_colon_split in H;
      [|apply str_of_nat_digits | apply str_of_nat_digits].
    destruct H as [H ->]. apply str_of_nat_inj in H. split; [lia | reflexivity]. }
  split; rewrite highlights_from_In; split.
  - intros [k [t [T1 [T2 T3]]]].
    destruct T3 as [[T4 T5]|[[T4 T5]|[T4 T5]]]; apply Num in T5 as [-> T5]; try discriminate T5.
    rewrite M1 in T1. injection T1 as <-. apply Hh in T2. split; [exact T2|].
    rewrite <- (proj1 (Hc T2)). exact T4.
  - intros [T2 T4]. exists j, (analyze_turn (st r) P). split; [exact M1|].
    split; [apply Hh, T2|]. left. split; [|reflexivity]. rewrite (proj1 (Hc T2)). exact T4.
  - intros [k [t [T1 [T2 T3]]]].
    destruct T3 as [[T4 T5]|[[T4 T5]|[T4 T5]]]; apply Num in T5 as [-> T5]; try discriminate T5.
    rewrite M1 in T1. injection T1 as <-. apply Hh in T2. split; [exact T2|].
    rewrite <- (proj2 (Hc T2)). exact T4.
  - intros [T2 T4]. exists j, (analyze_turn (st r) P). split; [exact M1|].
    split; [apply Hh, T2|]. right. right. split; [|reflexivity]. rewrite (proj2 (Hc T2)). exact T4.
Qed.

Lemma highlight_curiosity_space_iff_witness :
  NoDup [0%nat; 1%nat] /\
  In ("Turn " ++ str_of_nat 2 ++ ": Human gave AI space to express freely")
     (highlights_from 0 (map (fst (analyze_conversation
        (store_of [new_turn "ai" "Hello"; new_turn "human" "Feel free to answer"])
        [0%nat; 1%nat])) [0%nat; 1%nat])).
Proof.
  assert (H : NoDup [0%nat; 1%nat]) by apply (seq_NoDup 2 0).
  split; [exact H|].
  apply (proj2 (proj2 (highlight_curiosity_space_iff
    (store_of [new_turn "ai" "Hello"; new_turn "human" "Feel free to answer"])
    [0%nat; 1%nat] 1%nat 1%nat H eq_refl))).
  vm_compute. split; reflexivity.
Defined.
